(** * climate_graz: climatology, order statistics and heat counts

    A shallow embedding of [main.py].  The script loads one station's daily
    temperature table with pandas, and computes

    - phase one: the 1991-2020 monthly climatology, the monthly means, their
      anomalies and the five years of largest mean anomaly;
    - phase two: per-month median and quantiles over the year 2002 together
      with everything from 2023 on;
    - phase three: the yearly number of hot days and tropical nights.

    The table is a list of rows in file order.  A cell is [option Q]: [None]
    is pandas' NaN (a blank cell of the CSV), and the float arithmetic of the
    script is idealised to exact rational arithmetic.  The pandas operations
    the script calls ([df[a:b]], [groupby], [mean], [median], [quantile],
    [nlargest], frame subtraction, [dropna]) are written out as the functions
    below; plotting is left out. *)

From Stdlib Require Import ZArith QArith Qround List Bool Lia Lqa.
From Stdlib Require Import Sorting.Sorted Sorting.Permutation.
Import ListNotations.

Local Open Scope Z_scope.

(** ** Timestamps of a daily series *)

(** The index of the table after [pd.to_datetime] and [set_index("time")]:
    one calendar day per row (midnight timestamps). *)
Record Timestamp : Type := mkTs { year : Z; month : Z; day : Z }.

Definition ts_ltb (a b : Timestamp) : bool :=
  (year a <? year b)
  || ((year a =? year b)
      && ((month a <? month b)
          || ((month a =? month b) && (day a <? day b)))).

Definition ts_leb (a b : Timestamp) : bool := negb (ts_ltb b a).

Definition ts_eqb (a b : Timestamp) : bool :=
  (year a =? year b) && (month a =? month b) && (day a =? day b).

Definition is_leap_year (y : Z) : bool :=
  ((y mod 4 =? 0) && negb (y mod 100 =? 0)) || (y mod 400 =? 0).

Definition days_in_month (y m : Z) : Z :=
  if m =? 2 then (if is_leap_year y then 29 else 28)
  else if (m =? 4) || (m =? 6) || (m =? 9) || (m =? 11) then 30
  else 31.

(** What [pd.to_datetime] accepts as a date. *)
Definition valid_ts (t : Timestamp) : bool :=
  (1 <=? month t) && (month t <=? 12)
  && (1 <=? day t) && (day t <=? days_in_month (year t) (month t)).

(** ** The table *)

Inductive Column : Type := tl_mittel | tlmin | tlmax.

(** The three temperature cells of a row; also the row type of every
    aggregated frame ([yearly_means], [clim], [monthly_means], [anom]). *)
Record Temps : Type := mkTemps { c_mittel : option Q; c_min : option Q; c_max : option Q }.

Definition cell (c : Column) (x : Temps) : option Q :=
  match c with
  | tl_mittel => c_mittel x
  | tlmin => c_min x
  | tlmax => c_max x
  end.

Record Row : Type := mkRow { time : Timestamp; vals : Temps }.

Definition DataFrame : Type := list Row.

Definition index (df : DataFrame) : list Timestamp := map time df.

Definition column (c : Column) (df : DataFrame) : list (option Q) :=
  map (fun r => cell c (vals r)) df.

Definition row_year (r : Row) : Z := year (time r).
Definition row_month (r : Row) : Z := month (time r).
Definition row_year_month (r : Row) : Z * Z := (year (time r), month (time r)).

Definition valid_table (df : DataFrame) : bool := forallb (fun r => valid_ts (time r)) df.

(** ** Group keys *)

(** A pandas index level used as a group key, with its order. *)
Class Key (K : Type) : Type := { kltb : K -> K -> bool }.

(** The order of a group key is a strict total order. *)
Class KeyLaws (K : Type) `{Key K} : Prop := {
  kltb_irrefl : forall a, kltb a a = false;
  kltb_trans : forall a b c, kltb a b = true -> kltb b c = true -> kltb a c = true;
  kltb_total : forall a b, kltb a b = false -> kltb b a = false -> a = b
}.

Definition keqb {K} `{Key K} (a b : K) : bool := negb (kltb a b) && negb (kltb b a).

#[global] Instance Key_Z : Key Z := {| kltb := Z.ltb |}.

(** The two-level (year, month) index, ordered lexicographically. *)
Definition pair_ltb (a b : Z * Z) : bool :=
  (fst a <? fst b) || ((fst a =? fst b) && (snd a <? snd b)).

#[global] Instance Key_pair : Key (Z * Z) := {| kltb := pair_ltb |}.

(** ** groupby *)

(** Insertion into the sorted, duplicate-free list of group keys. *)
Fixpoint insert_key {K} `{Key K} (k : K) (l : list K) : list K :=
  match l with
  | [] => [k]
  | h :: t =>
      if kltb k h then k :: l
      else if kltb h k then h :: insert_key k t
      else l
  end.

(** The result index of a [groupby]: the distinct keys in ascending order
    ([sort=True], the default). *)
Definition unique_keys {K} `{Key K} (ks : list K) : list K := fold_right insert_key [] ks.

(** [obj.groupby(key)]: every distinct key with the rows that carry it, the
    rows of a group in their original order. *)
Definition groupby {K} `{Key K} {A : Type} (key : A -> K) (l : list A) : list (K * list A) :=
  map (fun k => (k, filter (fun a => keqb (key a) k) l)) (unique_keys (map key l)).

(** [.agg(f)], [.mean()] on a grouped object: one result per group. *)
Definition agg {K A V : Type} (f : list A -> V) (g : list (K * list A)) : list (K * V) :=
  map (fun kg => (fst kg, f (snd kg))) g.

(** [frame.loc[k]] on a keyed frame; [None] when the key is absent. *)
Fixpoint loc {K} `{Key K} {V : Type} (k : K) (l : list (K * V)) : option V :=
  match l with
  | [] => None
  | kv :: l' => if keqb k (fst kv) then Some (snd kv) else loc k l'
  end.

Definition keys {K V : Type} (l : list (K * V)) : list K := map fst l.

(** ** Aggregations on a column *)

(** The observed values of a column: NaN cells are skipped by every
    aggregation of the script. *)
Fixpoint dropna (x : list (option Q)) : list Q :=
  match x with
  | [] => []
  | Some v :: t => v :: dropna t
  | None :: t => dropna t
  end.

Definition Qsum (l : list Q) : Q := fold_right Qplus 0%Q l.

(** [Series.mean()]: the sum of the observed values over their number; NaN
    when nothing is observed. *)
Definition mean (x : list (option Q)) : option Q :=
  match dropna x with
  | [] => None
  | v :: t => Some (Qsum (v :: t) / inject_Z (Z.of_nat (length (v :: t))))%Q
  end.

Fixpoint insert_sorted (x : Q) (l : list Q) : list Q :=
  match l with
  | [] => [x]
  | y :: t => if Qle_bool x y then x :: l else y :: insert_sorted x t
  end.

(** The observed values in ascending order. *)
Definition sort_values (l : list Q) : list Q := fold_right insert_sorted [] l.

(** ['median']: the middle observed value, or the mean of the two middle ones. *)
Definition median (x : list (option Q)) : option Q :=
  let v := sort_values (dropna x) in
  let n := length v in
  match v with
  | [] => None
  | v0 :: _ =>
      if Nat.odd n then Some (nth (n / 2) v v0)
      else Some ((nth (n / 2) v v0 + nth (n / 2 - 1) v v0) / 2)%Q
  end.

(** [x.quantile(q)] with the default linear interpolation: position
    [q * (n - 1)] in the sorted observed values, interpolated between its two
    neighbours. *)
Definition quantile (q : Q) (x : list (option Q)) : option Q :=
  let v := sort_values (dropna x) in
  let n := length v in
  match v with
  | [] => None
  | v0 :: _ =>
      let h := (q * inject_Z (Z.of_nat n - 1))%Q in
      let lo := Z.to_nat (Qfloor h) in
      let hi := Nat.min (lo + 1) (n - 1) in
      let g := (h - inject_Z (Qfloor h))%Q in
      Some (nth lo v v0 + (nth hi v v0 - nth lo v v0) * g)%Q
  end.

(** [(x >= thr).sum()]: the number of cells at or above the threshold; a NaN
    cell compares false. *)
Definition count_ge (thr : Q) (x : list (option Q)) : Z :=
  Z.of_nat (length (filter (fun v => match v with Some q => Qle_bool thr q | None => false end) x)).

(** Float subtraction: NaN when either side is NaN. *)
Definition fsub (a b : option Q) : option Q :=
  match a, b with
  | Some x, Some y => Some (x - y)%Q
  | _, _ => None
  end.

(** Float comparison [a <= b]: false when either side is NaN. *)
Definition fle (a b : option Q) : Prop :=
  match a, b with
  | Some x, Some y => (x <= y)%Q
  | _, _ => False
  end.

(** ** Frames of aggregated rows *)

Definition frame_mean (g : DataFrame) : Temps :=
  mkTemps (mean (column tl_mittel g)) (mean (column tlmin g)) (mean (column tlmax g)).

Definition temps_sub (a b : Temps) : Temps :=
  mkTemps (fsub (c_mittel a) (c_mittel b)) (fsub (c_min a) (c_min b)) (fsub (c_max a) (c_max b)).

Definition nan_temps : Temps := mkTemps None None None.

Definition has_nan (t : Temps) : bool :=
  match c_mittel t, c_min t, c_max t with
  | Some _, Some _, Some _ => false
  | _, _, _ => true
  end.

(** [frame.dropna()]: the rows without a NaN cell. *)
Definition frame_dropna {K : Type} (f : list (K * Temps)) : list (K * Temps) :=
  filter (fun kt => negb (has_nan (snd kt))) f.

(** [monthly_means - clim]: the (year, month) index is aligned with the month
    index on the level they share, so the climatology row of month [m] is
    subtracted from every (year, [m]) row.  Both frames are grouped from the
    same restricted table, so every month of one occurs in the other. *)
Definition sub_on_month (mm : list ((Z * Z) * Temps)) (cl : list (Z * Temps)) : list ((Z * Z) * Temps) :=
  map (fun kt =>
         (fst kt,
          temps_sub (snd kt)
            (match loc (snd (fst kt)) cl with Some c => c | None => nan_temps end)))
      mm.

(** [frame[c]]: one column of a keyed frame, as a series. *)
Definition series_of {K : Type} (c : Column) (f : list (K * Temps)) : list (K * option Q) :=
  map (fun kt => (fst kt, cell c (snd kt))) f.

(** ** nlargest *)

Fixpoint insert_desc {K : Type} (e : K * Q) (l : list (K * Q)) : list (K * Q) :=
  match l with
  | [] => [e]
  | y :: t => if Qle_bool (snd y) (snd e) then e :: l else y :: insert_desc e t
  end.

(** The non-NaN entries of a series, and the NaN ones. *)
Fixpoint series_dropna {K : Type} (s : list (K * option Q)) : list (K * Q) :=
  match s with
  | [] => []
  | (k, Some v) :: t => (k, v) :: series_dropna t
  | (_, None) :: t => series_dropna t
  end.

Definition series_nans {K : Type} (s : list (K * option Q)) : list (K * option Q) :=
  filter (fun e => match snd e with None => true | Some _ => false end) s.

(** The series in descending order of value, equal values in index order
    ([keep="first"]), the NaN entries last. *)
Definition sort_desc {K : Type} (s : list (K * option Q)) : list (K * option Q) :=
  map (fun e => (fst e, Some (snd e))) (fold_right insert_desc [] (series_dropna s))
  ++ series_nans s.

(** [s.nlargest(n)]: the first [n] entries in that order. *)
Definition nlargest {K : Type} (n : nat) (s : list (K * option Q)) : list (K * option Q) :=
  firstn n (sort_desc s).

(** ** Exceptions *)

Inductive Exception : Type := KeyError | ValueError.

Inductive result (A : Type) : Type :=
| Ok (a : A)
| Raise (e : Exception).

Arguments Ok {A} a.
Arguments Raise {A} e.

Definition bind {A B : Type} (r : result A) (k : A -> result B) : result B :=
  match r with
  | Ok a => k a
  | Raise e => Raise e
  end.

Notation "x <- e ;; k" := (bind e (fun x => k))
  (at level 61, e at next level, right associativity).

(** ** Slicing the date index, [df[start:stop]] *)

Fixpoint is_monotonic_increasing (idx : list Timestamp) : bool :=
  match idx with
  | a :: t => match t with
              | b :: _ => ts_leb a b && is_monotonic_increasing t
              | [] => true
              end
  | [] => true
  end.

(** The position [searchsorted] finds for the left bound: the rows before
    [s] are dropped. *)
Fixpoint drop_before (s : Timestamp) (df : DataFrame) : DataFrame :=
  match df with
  | [] => []
  | r :: t => if ts_ltb (time r) s then drop_before s t else df
  end.

(** The position [searchsorted] finds for the right bound: the rows up to and
    including day [e] are kept. *)
Fixpoint take_through (e : Timestamp) (df : DataFrame) : DataFrame :=
  match df with
  | [] => []
  | r :: t => if ts_leb (time r) e then r :: take_through e t else []
  end.

Definition in_bounds (start stop : option Timestamp) (t : Timestamp) : bool :=
  match start with Some s => ts_leb s t | None => true end
  && match stop with Some e => ts_leb t e | None => true end.

(** [df[start:stop]] with date strings, both ends included.  On an index in
    ascending order the two bounds are searched and the rows between them
    returned.  On an index that is not ascending pandas selects by mask, and
    only when both bounds are present in the index; otherwise it raises
    KeyError ("Value based partial slicing on non-monotonic DatetimeIndexes
    with non-existing keys is not allowed").  The right bound of a date string
    is the last nanosecond of that day, which no midnight timestamp equals. *)
Definition getitem_slice (start stop : option Timestamp) (df : DataFrame) : result DataFrame :=
  if is_monotonic_increasing (index df) then
    let d := match start with Some s => drop_before s df | None => df end in
    Ok (match stop with Some e => take_through e d | None => d end)
  else
    let in_index :=
      match start with Some s => existsb (ts_eqb s) (index df) | None => true end
      && match stop with Some _ => false | None => true end in
    if in_index then Ok (filter (fun r => in_bounds start stop (time r)) df)
    else Raise KeyError.

(** ** Aggregation by a dict of function lists, and column labels *)

(** [.agg({column: [f, ...], ...})]: one result column per (column, function)
    pair, in the order of the dict. *)
Definition agg_columns {V : Type} (spec : list (Column * list (list (option Q) -> V)))
  : list (Column * (list (option Q) -> V)) :=
  flat_map (fun cf => map (fun f => (fst cf, f)) (snd cf)) spec.

Definition agg_dict {V : Type} (spec : list (Column * list (list (option Q) -> V)))
  (g : DataFrame) : list V :=
  map (fun cf => snd cf (column (fst cf) g)) (agg_columns spec).

(** A keyed frame whose cells are addressed by column label. *)
Record Labelled (K L V : Type) : Type := mkLabelled {
  labels : list L;
  body : list (K * list V)
}.

Arguments mkLabelled {K L V} labels body.
Arguments labels {K L V} l.
Arguments body {K L V} l.

(** [frame.columns = new]: the labels are replaced by position; a list of
    another length than the frame's width raises ValueError. *)
Definition set_columns {K L V : Type} (width : nat) (new : list L) (rows : list (K * list V))
  : result (Labelled K L V) :=
  if Nat.eqb width (length new) then Ok (mkLabelled new rows) else Raise ValueError.

(** [pd.MultiIndex.from_product([xs, ys])]. *)
Definition from_product {A B : Type} (xs : list A) (ys : list B) : list (A * B) :=
  flat_map (fun x => map (fun y => (x, y)) ys) xs.

Fixpoint position {L : Type} (eqb : L -> L -> bool) (x : L) (l : list L) : option nat :=
  match l with
  | [] => None
  | y :: t => if eqb x y then Some O else option_map S (position eqb x t)
  end.

(** [frame.loc[k, label]]. *)
Definition at_label {K} `{Key K} {L V : Type} (eqb : L -> L -> bool)
  (f : Labelled K L V) (k : K) (lbl : L) : option V :=
  match loc k (body f), position eqb lbl (labels f) with
  | Some row, Some i => nth_error row i
  | _, _ => None
  end.

Inductive StatName : Type := Median | P25 | P75 | P10 | P90.

Inductive HeatName : Type := hot_days | tropical_nights.

Definition column_eqb (a b : Column) : bool :=
  match a, b with
  | tl_mittel, tl_mittel | tlmin, tlmin | tlmax, tlmax => true
  | _, _ => false
  end.

Definition stat_eqb (a b : StatName) : bool :=
  match a, b with
  | Median, Median | P25, P25 | P75, P75 | P10, P10 | P90, P90 => true
  | _, _ => false
  end.

Definition stat_label_eqb (a b : Column * StatName) : bool :=
  column_eqb (fst a) (fst b) && stat_eqb (snd a) (snd b).

Definition heat_eqb (a b : HeatName) : bool :=
  match a, b with
  | hot_days, hot_days | tropical_nights, tropical_nights => true
  | _, _ => false
  end.

(** ** Phase one: climatology, anomalies, hottest years *)

Record Phase1 : Type := mkPhase1 {
  df_date_restricted : DataFrame;
  yearly_means : list (Z * Temps);
  clim : list (Z * Temps);
  monthly_means : list ((Z * Z) * Temps);
  anom : list ((Z * Z) * Temps);
  mean_anom_per_year : list (Z * option Q);
  hottest_years : list Z
}.

Definition window_start : Timestamp := mkTs 1991 1 1.
Definition window_end : Timestamp := mkTs 2020 12 31.

(** Lines 23-43.  The month strings "1991-01" and "2020-12" of the second
    slice resolve to the first day of the one and the last day of the other. *)
Definition phase1 (df : DataFrame) : result Phase1 :=
  restricted <- getitem_slice (Some window_start) (Some window_end) df ;;
  let ym := frame_dropna (agg frame_mean (groupby row_year restricted)) in
  df_clim <- getitem_slice (Some (mkTs 1991 1 1)) (Some (mkTs 2020 12 31)) restricted ;;
  let cl := agg frame_mean (groupby row_month df_clim) in
  let mm := agg frame_mean (groupby row_year_month restricted) in
  let an := sub_on_month mm cl in
  let series := series_of tl_mittel an in
  let per_year :=
    agg (fun g => mean (map snd g)) (groupby (fun e : (Z * Z) * option Q => fst (fst e)) series) in
  Ok (mkPhase1 restricted ym cl mm an per_year (keys (nlargest 5 per_year))).

(** ** Phase two: order statistics per month over the custom years *)

Definition order_stats : list (list (option Q) -> option Q) :=
  [median; quantile (1 # 4); quantile (3 # 4); quantile (1 # 10); quantile (9 # 10)].

Definition stats_spec : list (Column * list (list (option Q) -> option Q)) :=
  [(tl_mittel, order_stats); (tlmin, order_stats); (tlmax, order_stats)].

(** Line 73. *)
Definition df_custom_years (df : DataFrame) : result DataFrame :=
  a <- getitem_slice (Some (mkTs 2002 1 1)) (Some (mkTs 2002 12 31)) df ;;
  b <- getitem_slice (Some (mkTs 2023 1 1)) None df ;;
  Ok (a ++ b).

(** Lines 77-91. *)
Definition monthly_stats (df : DataFrame) : result (Labelled Z (Column * StatName) (option Q)) :=
  custom <- df_custom_years df ;;
  set_columns (length (agg_columns stats_spec))
    (from_product [tl_mittel; tlmin; tlmax] [Median; P25; P75; P10; P90])
    (agg (agg_dict stats_spec) (groupby row_month custom)).

(** ** Phase three: hot days and tropical nights per year *)

Definition heat_spec : list (Column * list (list (option Q) -> Z)) :=
  [(tlmax, [count_ge 30]); (tlmin, [count_ge 20])].

(** Lines 146-152. *)
Definition annual_stats (df : DataFrame) : result (Labelled Z HeatName Z) :=
  set_columns (length (agg_columns heat_spec))
    [hot_days; tropical_nights]
    (agg (agg_dict heat_spec) (groupby row_year df)).

(** ** The script *)

Record Outputs : Type := mkOutputs {
  out_phase1 : Phase1;
  out_monthly_stats : Labelled Z (Column * StatName) (option Q);
  out_annual_stats : Labelled Z HeatName Z
}.

Definition main (df : DataFrame) : result Outputs :=
  p1 <- phase1 df ;;
  ms <- monthly_stats df ;;
  hs <- annual_stats df ;;
  Ok (mkOutputs p1 ms hs).

(** ** The rest of the script: the second slice, the timeline, the plotted columns *)

(** Lines 23 and 27: the frame the climatology is grouped from, the window
    slice sliced once more by month strings. *)
Definition df_clim (df : DataFrame) : result DataFrame :=
  restricted <- getitem_slice (Some window_start) (Some window_end) df ;;
  getitem_slice (Some (mkTs 1991 1 1)) (Some (mkTs 2020 12 31)) restricted.

(** [pd.Timestamp(year=y, month=m, day=d)]: ValueError for a year outside
    1..9999 or a day that does not exist. *)
Definition make_timestamp (y m d : Z) : result Timestamp :=
  if (1 <=? y) && (y <=? 9999) && valid_ts (mkTs y m d)
  then Ok (mkTs y m d)
  else Raise ValueError.

(** Line 47: the 15th of each (year, month) of the series index. *)
Fixpoint time_index (idx : list (Z * Z)) : result (list Timestamp) :=
  match idx with
  | [] => Ok []
  | ym :: t =>
      ts <- make_timestamp (fst ym) (snd ym) 15 ;;
      rest <- time_index t ;;
      Ok (ts :: rest)
  end.

(** Lines 37 and 47-48: the tl_mittel anomaly series under its new date index. *)
Definition series (o : Phase1) : result (list (Timestamp * option Q)) :=
  let s := series_of tl_mittel (anom o) in
  idx <- time_index (keys s) ;;
  Ok (combine idx (map snd s)).

(** Lines 55-56: [series[series.index.year == year]], the points drawn for
    one highlighted year. *)
Definition highlighted (s : list (Timestamp * option Q)) (y : Z) : list (Timestamp * option Q) :=
  filter (fun e => year (fst e) =? y) s.

(** Line 94: [range(1, 13)]. *)
Definition months : list Z := map Z.of_nat (seq 1 12).

(** [frame[label]] (lines 107-123) and [frame.label] (lines 155-156): the
    column under a label, one cell per row; KeyError for a label the frame
    does not have. *)
Definition get_column {K L V : Type} (eqb : L -> L -> bool) (f : Labelled K L V) (lbl : L)
  : result (list V) :=
  match position eqb lbl (labels f) with
  | Some i =>
      Ok (flat_map (fun kv => match nth_error (snd kv) i with Some v => [v] | None => [] end)
                   (body f))
  | None => Raise KeyError
  end.

(** * Notions used in the statements, and sample tables *)

(** The group keys are strictly ascending. *)
Definition klt {K} `{Key K} (a b : K) : Prop := kltb a b = true.

(** Rows in ascending date order (equal dates allowed). *)
Definition ascending (df : DataFrame) : Prop :=
  StronglySorted (fun a b => ts_leb (time a) (time b) = true) df.

(** The rows a slice selects. *)
Definition between (start stop : option Timestamp) (df : DataFrame) : DataFrame :=
  filter (fun r => in_bounds start stop (time r)) df.

(** The date lies in the reference window 1991-01-01 .. 2020-12-31. *)
Definition in_window (t : Timestamp) : bool :=
  ts_leb (mkTs 1991 1 1) t && ts_leb t (mkTs 2020 12 31).

(** The baseline data: the rows of the table dated within the window. *)
Definition baseline (df : DataFrame) : DataFrame :=
  filter (fun r => in_window (time r)) df.

(** A row of the table, from its date and its three cells. *)
Definition sample_row (y m d : Z) (a b c : option Q) : Row :=
  mkRow (mkTs y m d) (mkTemps a b c).

(** An ascending table with rows before, inside and after the window, a
    missing cell, a hot day and a tropical night. *)
Definition sample_table : DataFrame :=
  [ sample_row 1990 12 31 (Some 1) (Some 0) (Some 2);
    sample_row 1991 1 1 (Some 2) (Some 1) (Some 3);
    sample_row 1991 1 2 (Some 4) None (Some 30);
    sample_row 1991 7 1 (Some 25) (Some 20) (Some 31);
    sample_row 1992 1 1 (Some 6) (Some 1) (Some 3);
    sample_row 2002 1 5 (Some 7) (Some 1) (Some 3);
    sample_row 2002 1 6 (Some 9) (Some 1) (Some 3);
    sample_row 2021 1 1 (Some 100) (Some 1) (Some 3);
    sample_row 2023 1 1 (Some 3) (Some 1) (Some 3) ]%Q.

(** The results of phase one on the sample table. *)
Definition empty_phase1 : Phase1 := mkPhase1 [] [] [] [] [] [] [].

Definition sample_phase1 : Phase1 :=
  Eval vm_compute in match phase1 sample_table with Ok o => o | Raise _ => empty_phase1 end.

(** A cell strictly above the threshold ("exceeds"), and a cell at or above
    it; a NaN cell is neither. *)
Definition exceeds (thr : Q) (v : option Q) : bool :=
  match v with Some q => negb (Qle_bool q thr) | None => false end.

Definition reaches (thr : Q) (v : option Q) : bool :=
  match v with Some q => Qle_bool thr q | None => false end.

(** The number of rows of the table that satisfy [p]. *)
Definition count_rows (p : Row -> bool) (df : DataFrame) : Z :=
  Z.of_nat (length (filter p df)).

(** One summer day exactly on both thresholds, and what phase three returns
    for it. *)
Definition threshold_table : DataFrame :=
  [ sample_row 2000 7 1 (Some 25) (Some 20) (Some 30) ]%Q.

Definition threshold_stats : Labelled Z HeatName Z :=
  mkLabelled [hot_days; tropical_nights] [(2000, [1; 1])].

(** The custom year set: the rows dated within 2002, followed by the rows
    dated 2023-01-01 or later. *)
Definition rows_of_2002 (df : DataFrame) : DataFrame :=
  filter (fun r => ts_leb (mkTs 2002 1 1) (time r) && ts_leb (time r) (mkTs 2002 12 31)) df.

Definition rows_from_2023 (df : DataFrame) : DataFrame :=
  filter (fun r => ts_leb (mkTs 2023 1 1) (time r)) df.

Definition custom_rows (df : DataFrame) : DataFrame :=
  rows_of_2002 df ++ rows_from_2023 df.

(** The fifteen labels assigned to [monthly_stats]. *)
Definition stat_labels : list (Column * StatName) :=
  from_product [tl_mittel; tlmin; tlmax] [Median; P25; P75; P10; P90].

(** The statistic a label names. *)
Definition stat_fun (s : StatName) : list (option Q) -> option Q :=
  match s with
  | Median => median
  | P25 => quantile (1 # 4)
  | P75 => quantile (3 # 4)
  | P10 => quantile (1 # 10)
  | P90 => quantile (9 # 10)
  end.

(** The results of phase two and of the whole script on the sample table. *)
Definition sample_monthly_stats : Labelled Z (Column * StatName) (option Q) :=
  Eval vm_compute in
    match monthly_stats sample_table with Ok f => f | Raise _ => mkLabelled [] [] end.

(** The sample table with other rows outside the two ranges. *)
Definition sample_table_other : DataFrame :=
  [ sample_row 1950 6 1 (Some 40) (Some 30) (Some 50);
    sample_row 2002 1 5 (Some 7) (Some 1) (Some 3);
    sample_row 2002 1 6 (Some 9) (Some 1) (Some 3);
    sample_row 2010 8 1 None (Some 21) (Some 35);
    sample_row 2023 1 1 (Some 3) (Some 1) (Some 3) ]%Q.

Definition sample_outputs : Outputs :=
  Eval vm_compute in
    match main sample_table with
    | Ok out => out
    | Raise _ => mkOutputs empty_phase1 (mkLabelled [] []) (mkLabelled [] [])
    end.

(** A table with valid dates whose rows are not in date order. *)
Definition unordered_table : DataFrame :=
  [ sample_row 2021 1 1 (Some 1) (Some 0) (Some 2);
    sample_row 1990 1 1 (Some 2) (Some 1) (Some 3) ]%Q.

(** Ascending rows none of which lies in the reference window, in 2002 or
    after 2022. *)
Definition outside_table : DataFrame :=
  [ sample_row 1980 3 1 (Some 1) (Some 0) (Some 2);
    sample_row 2021 5 1 None None None ]%Q.

(** The value [quantile] interpolates at position [h] of the sorted values. *)
Definition interp (v : list Q) (v0 : Q) (h : Q) : Q :=
  let lo := Z.to_nat (Qfloor h) in
  let hi := Nat.min (lo + 1) (length v - 1) in
  (nth lo v v0 + (nth hi v v0 - nth lo v v0) * (h - inject_Z (Qfloor h)))%Q.

(** A custom-year month whose mean-temperature cells are all blank. *)
Definition missing_column_table : DataFrame :=
  [ sample_row 2002 1 5 None (Some 1) (Some 3) ]%Q.

Definition missing_column_stats : Labelled Z (Column * StatName) (option Q) :=
  Eval vm_compute in
    match monthly_stats missing_column_table with Ok f => f | Raise _ => mkLabelled [] [] end.

(** [a] ranks at or below [b]: a NaN ranks below every value. *)
Definition ranks_below (a b : option Q) : Prop :=
  match a, b with
  | None, _ => True
  | Some _, None => False
  | Some x, Some y => (x <= y)%Q
  end.

(** Descending order of value, on valued entries and on series entries. *)
Definition desc_val {K : Type} (a b : K * Q) : Prop := (snd b <= snd a)%Q.

Definition desc_rank {K : Type} (a b : K * option Q) : Prop := ranks_below (snd b) (snd a).

Definition with_value {K : Type} (e : K * Q) : K * option Q := (fst e, Some (snd e)).

(** Seven baseline years, two of them tied and one without any observed
    mean temperature. *)
Definition seven_year_table : DataFrame :=
  [ sample_row 1991 1 1 (Some 1) (Some 0) (Some 2);
    sample_row 1992 1 1 (Some 5) (Some 0) (Some 2);
    sample_row 1993 1 1 (Some 3) (Some 0) (Some 2);
    sample_row 1994 1 1 None (Some 0) (Some 2);
    sample_row 1995 1 1 (Some 5) (Some 0) (Some 2);
    sample_row 1996 1 1 (Some 2) (Some 0) (Some 2);
    sample_row 1997 1 1 (Some 4) (Some 0) (Some 2) ]%Q.

Definition seven_year_phase1 : Phase1 :=
  Eval vm_compute in
    match phase1 seven_year_table with Ok o => o | Raise _ => empty_phase1 end.

(** The seven-year table with other rows outside the window. *)
Definition seven_year_table_other : DataFrame :=
  (sample_row 1985 7 1 (Some 40) (Some 25) (Some 45)
   :: seven_year_table
   ++ [ sample_row 2022 7 1 (Some 50) None (Some 60) ])%Q.

(** The rows of the calendar years 1991 to 2020. *)
Definition year_in_window (r : Row) : bool := (1991 <=? row_year r) && (row_year r <=? 2020).

Definition Zsum (l : list Z) : Z := fold_right Z.add 0 l.

(** Strictly ascending dates. *)
Definition ts_lt (a b : Timestamp) : Prop := ts_ltb a b = true.

(** A table out of date order whose rows are those of the sample table. *)
Definition sample_table_shuffled : DataFrame := rev sample_table.

(** The date the script gives the anomaly of a (year, month). *)
Definition mid_month (k : Z * Z) : Timestamp := mkTs (fst k) (snd k) 15.

Definition dated (e : (Z * Z) * option Q) : Timestamp * option Q := (mid_month (fst e), snd e).

(** The dated anomaly series of the seven-year table. *)
Definition seven_year_series : list (Timestamp * option Q) :=
  Eval vm_compute in
    match series seven_year_phase1 with Ok s => s | Raise _ => [] end.

(** The observed values of a list of cells, NaN cells left out. *)
Definition observed (x : list (option Q)) : list Q :=
  flat_map (fun v => match v with Some q => [q] | None => [] end) x.

(** The arithmetic mean of a list of cells: the sum of the observed values
    divided by their number; NaN when no value is observed. *)
Definition arithmetic_mean (x : list (option Q)) : option Q :=
  match observed x with
  | [] => None
  | _ :: _ =>
      Some (fold_right Qplus 0 (observed x) / inject_Z (Z.of_nat (length (observed x))))%Q
  end.

(** [s] holds the observed values of [x] in ascending order. *)
Definition sorted_sample (x : list (option Q)) (s : list Q) : Prop :=
  Permutation s (observed x) /\ StronglySorted Qle s.

(** [r] is the median of [x]: the middle value of the sorted sample, or the
    half sum of its two middle values; NaN when no value is observed. *)
Definition is_median (x : list (option Q)) (r : option Q) : Prop :=
  match r with
  | None => observed x = []
  | Some v =>
      exists s,
        sorted_sample x s /\ s <> []
        /\ (v == if Nat.odd (length s)
                 then nth (length s / 2) s 0
                 else (nth (length s / 2 - 1) s 0 + nth (length s / 2) s 0) / 2)%Q
  end.

(** [r] is the quantile of [x] at probability [q] (the percentile 100 [q])
    by linear interpolation: with [n] sorted values and [h = q (n - 1)], the
    value at position [floor h] plus the fraction [h - floor h] of the step to
    the next value; NaN when no value is observed. *)
Definition is_quantile (q : Q) (x : list (option Q)) (r : option Q) : Prop :=
  match r with
  | None => observed x = []
  | Some v =>
      exists s,
        sorted_sample x s /\ s <> []
        /\ (v == nth (Z.to_nat (Qfloor (q * inject_Z (Z.of_nat (length s) - 1)))) s 0
                 + (nth (Nat.min (Z.to_nat (Qfloor (q * inject_Z (Z.of_nat (length s) - 1))) + 1)
                                 (length s - 1)) s 0
                    - nth (Z.to_nat (Qfloor (q * inject_Z (Z.of_nat (length s) - 1)))) s 0)
                   * (q * inject_Z (Z.of_nat (length s) - 1)
                      - inject_Z (Qfloor (q * inject_Z (Z.of_nat (length s) - 1)))))%Q
  end.

(** The sample table followed by one earlier row, and the seven-year table
    followed by one earlier row: the added row lies outside every date range
    of the script and breaks the date order. *)
Definition sample_table_appended : DataFrame :=
  (sample_table ++ [ sample_row 1950 6 1 (Some 40) (Some 30) (Some 50) ])%Q.

Definition seven_year_table_appended : DataFrame :=
  (seven_year_table ++ [ sample_row 1985 7 1 (Some 40) (Some 25) (Some 45) ])%Q.

(** * Properties *)

(** ** Group keys: the order laws and what [groupby] returns *)

Lemma Zkey_total (a b : Z) : (a <? b) = false -> (b <? a) = false -> a = b.
Proof. rewrite !Z.ltb_ge. lia. Qed.

Lemma Zkey_trans (a b c : Z) : (a <? b) = true -> (b <? c) = true -> (a <? c) = true.
Proof. rewrite !Z.ltb_lt. lia. Qed.

#[global] Instance KeyLaws_Z : KeyLaws Z.
Proof.
  constructor; simpl.
  - exact Z.ltb_irrefl.
  - exact Zkey_trans.
  - exact Zkey_total.
Qed.

Lemma pair_ltb_irrefl (a : Z * Z) : pair_ltb a a = false.
Proof. unfold pair_ltb. rewrite !Z.ltb_irrefl, andb_false_r. reflexivity. Qed.

Lemma pair_ltb_spec (a b : Z * Z) :
  pair_ltb a b = true <-> fst a < fst b \/ (fst a = fst b /\ snd a < snd b).
Proof.
  unfold pair_ltb.
  rewrite orb_true_iff, andb_true_iff, !Z.ltb_lt, Z.eqb_eq. tauto.
Qed.

Lemma pair_ltb_trans (a b c : Z * Z) :
  pair_ltb a b = true -> pair_ltb b c = true -> pair_ltb a c = true.
Proof. rewrite !pair_ltb_spec. lia. Qed.

Lemma pair_ltb_total (a b : Z * Z) :
  pair_ltb a b = false -> pair_ltb b a = false -> a = b.
Proof.
  intros Hab Hba.
  destruct a as [a1 a2], b as [b1 b2].
  destruct (Z.lt_trichotomy a1 b1) as [L | [E | L]].
  - assert (X : pair_ltb (a1, a2) (b1, b2) = true) by (apply pair_ltb_spec; simpl; lia).
    congruence.
  - destruct (Z.lt_trichotomy a2 b2) as [L2 | [E2 | L2]].
    + assert (X : pair_ltb (a1, a2) (b1, b2) = true) by (apply pair_ltb_spec; simpl; lia).
      congruence.
    + congruence.
    + assert (X : pair_ltb (b1, b2) (a1, a2) = true) by (apply pair_ltb_spec; simpl; lia).
      congruence.
  - assert (X : pair_ltb (b1, b2) (a1, a2) = true) by (apply pair_ltb_spec; simpl; lia).
    congruence.
Qed.

#[global] Instance KeyLaws_pair : KeyLaws (Z * Z).
Proof.
  constructor; simpl.
  - exact pair_ltb_irrefl.
  - exact pair_ltb_trans.
  - exact pair_ltb_total.
Qed.

Section GroupByFacts.
Context {K : Type} `{KeyLaws K}.

Lemma keqb_eq (a b : K) : keqb a b = true <-> a = b.
Proof.
  unfold keqb. split.
  - intros E. apply andb_true_iff in E. destruct E as [E1 E2].
    apply negb_true_iff in E1, E2. now apply kltb_total.
  - intros ->. now rewrite kltb_irrefl.
Qed.

Lemma keqb_refl (a : K) : keqb a a = true.
Proof. now apply keqb_eq. Qed.

Lemma keqb_sym (a b : K) : keqb a b = keqb b a.
Proof. unfold keqb. apply andb_comm. Qed.

Lemma In_insert_key (x k : K) (l : list K) : In x (insert_key k l) <-> x = k \/ In x l.
Proof.
  induction l as [| h t IH]; simpl.
  - intuition.
  - destruct (kltb k h) eqn:E1; simpl.
    + intuition.
    + destruct (kltb h k) eqn:E2; simpl.
      * rewrite IH. intuition.
      * assert (k = h) by now apply kltb_total. subst. intuition.
Qed.

Lemma In_unique_keys (x : K) (ks : list K) : In x (unique_keys ks) <-> In x ks.
Proof.
  induction ks as [| k t IH]; simpl.
  - tauto.
  - rewrite In_insert_key, IH. intuition.
Qed.

Lemma insert_key_sorted (k : K) (l : list K) :
  StronglySorted klt l -> StronglySorted klt (insert_key k l).
Proof.
  induction 1 as [| h t Hs IH Hall]; simpl.
  - repeat constructor.
  - destruct (kltb k h) eqn:E1.
    + constructor; [constructor; assumption |].
      constructor; [exact E1 |].
      rewrite Forall_forall in *. intros y Hy.
      unfold klt. eapply kltb_trans; [exact E1 | now apply Hall].
    + destruct (kltb h k) eqn:E2.
      * constructor; [assumption |].
        rewrite Forall_forall in *. intros y Hy.
        apply In_insert_key in Hy. destruct Hy as [-> | Hy]; [exact E2 | now apply Hall].
      * constructor; assumption.
Qed.

Lemma unique_keys_sorted (ks : list K) : StronglySorted klt (unique_keys ks).
Proof.
  induction ks as [| k t IH]; simpl; [constructor | now apply insert_key_sorted].
Qed.

Lemma sorted_keys_NoDup (l : list K) : StronglySorted klt l -> NoDup l.
Proof.
  induction 1 as [| h t Hs IH Hall]; constructor; [| assumption].
  intros Hin. rewrite Forall_forall in Hall. specialize (Hall h Hin).
  unfold klt in Hall. rewrite kltb_irrefl in Hall. discriminate.
Qed.

Lemma unique_keys_NoDup (ks : list K) : NoDup (unique_keys ks).
Proof. apply sorted_keys_NoDup, unique_keys_sorted. Qed.

Lemma keys_agg {A V : Type} (f : list A -> V) (g : list (K * list A)) :
  keys (agg f g) = keys g.
Proof. unfold keys, agg. rewrite map_map. reflexivity. Qed.

Lemma keys_groupby {A : Type} (key : A -> K) (l : list A) :
  keys (groupby key l) = unique_keys (map key l).
Proof. unfold keys, groupby. rewrite map_map. simpl. apply map_id. Qed.

(** A key of a grouped frame is the key of some row. *)
Lemma In_keys_groupby {A V : Type} (f : list A -> V) (key : A -> K) (l : list A) (k : K) :
  In k (keys (agg f (groupby key l))) <-> exists a, In a l /\ key a = k.
Proof.
  rewrite keys_agg, keys_groupby, In_unique_keys, in_map_iff.
  split; intros [a [X Y]]; exists a; tauto.
Qed.

Lemma loc_tabulate {V : Type} (g : K -> V) (k : K) (ks : list K) :
  loc k (map (fun x => (x, g x)) ks) = if existsb (keqb k) ks then Some (g k) else None.
Proof.
  induction ks as [| h t IH]; simpl; [reflexivity |].
  destruct (keqb k h) eqn:E; simpl.
  - apply keqb_eq in E. now subst.
  - exact IH.
Qed.

Lemma existsb_unique_keys {A : Type} (key : A -> K) (l : list A) (k : K) :
  existsb (keqb k) (unique_keys (map key l)) = existsb (fun a => keqb (key a) k) l.
Proof.
  apply eq_true_iff_eq. rewrite !existsb_exists. split.
  - intros [x [Hin E]]. apply In_unique_keys, in_map_iff in Hin.
    destruct Hin as [a [<- Ha]]. exists a. split; [assumption |].
    now rewrite keqb_sym.
  - intros [a [Ha E]]. exists (key a). split; [| now rewrite keqb_sym].
    apply In_unique_keys, in_map. assumption.
Qed.

(** Looking a key up in a grouped and aggregated frame: the aggregate of the
    rows that carry the key, when there is one. *)
Lemma loc_agg_groupby {A V : Type} (f : list A -> V) (key : A -> K) (l : list A) (k : K) :
  loc k (agg f (groupby key l)) =
  if existsb (fun a => keqb (key a) k) l
  then Some (f (filter (fun a => keqb (key a) k) l))
  else None.
Proof.
  unfold agg, groupby. rewrite map_map. simpl.
  rewrite (loc_tabulate (fun x => f (filter (fun a => keqb (key a) x) l))).
  now rewrite existsb_unique_keys.
Qed.

Lemma loc_In {V : Type} (k : K) (v : V) (l : list (K * V)) :
  loc k l = Some v -> In (k, v) l.
Proof.
  induction l as [| [k' v'] t IH]; simpl; [discriminate |].
  destruct (keqb k k') eqn:E.
  - apply keqb_eq in E. intros [= ->]. subst. now left.
  - intros X. right. now apply IH.
Qed.

Lemma In_loc {V : Type} (k : K) (v : V) (l : list (K * V)) :
  NoDup (keys l) -> In (k, v) l -> loc k l = Some v.
Proof.
  induction l as [| [k' v'] t IH]; simpl; [tauto |].
  intros ND [E | Hin].
  - inversion E; subst. now rewrite keqb_refl.
  - inversion ND as [| ? ? Hnot ND']; subst.
    destruct (keqb k k') eqn:E.
    + apply keqb_eq in E. subst. exfalso. apply Hnot.
      change k' with (fst (k', v)). now apply in_map.
    + now apply IH.
Qed.

End GroupByFacts.

Lemma keqb_Z (a b : Z) : keqb a b = (a =? b).
Proof.
  unfold keqb; simpl.
  destruct (Z.eqb_spec a b) as [-> | N].
  - now rewrite Z.ltb_irrefl.
  - destruct (Z.ltb_spec a b), (Z.ltb_spec b a); simpl; try reflexivity; lia.
Qed.

(** ** Timestamps and slices *)

Lemma ts_ltb_spec (a b : Timestamp) :
  ts_ltb a b = true <->
  year a < year b
  \/ (year a = year b /\ (month a < month b \/ (month a = month b /\ day a < day b))).
Proof.
  unfold ts_ltb.
  rewrite !orb_true_iff, !andb_true_iff, !orb_true_iff, !andb_true_iff, !Z.ltb_lt, !Z.eqb_eq.
  tauto.
Qed.

Lemma ts_leb_spec (a b : Timestamp) :
  ts_leb a b = true <->
  year a < year b
  \/ (year a = year b /\ (month a < month b \/ (month a = month b /\ day a <= day b))).
Proof.
  unfold ts_leb. rewrite negb_true_iff, <- not_true_iff_false, ts_ltb_spec. lia.
Qed.

Lemma ts_leb_trans (a b c : Timestamp) :
  ts_leb a b = true -> ts_leb b c = true -> ts_leb a c = true.
Proof. rewrite !ts_leb_spec. lia. Qed.

Lemma is_monotonic_increasing_ascending (df : DataFrame) :
  is_monotonic_increasing (index df) = true <-> ascending df.
Proof.
  unfold ascending. induction df as [| a t IH]; simpl.
  - split; [constructor | reflexivity].
  - destruct t as [| b t'].
    + simpl. split; [repeat constructor | reflexivity].
    + change (index (b :: t')) with (time b :: index t') in *.
      change (map time (b :: t')) with (time b :: index t').
      cbv beta iota. rewrite andb_true_iff, IH. split.
      * intros [Hab Hs]. constructor; [assumption |].
        constructor; [assumption |].
        inversion Hs as [| ? ? _ Hall]; subst.
        rewrite Forall_forall in *. intros y Hy.
        eapply ts_leb_trans; [exact Hab | now apply Hall].
      * intros Hs. inversion Hs as [| ? ? Hs' Hall]; subst.
        split; [| assumption]. now inversion Hall.
Qed.

Lemma filter_ascending (p : Row -> bool) (df : DataFrame) :
  ascending df -> ascending (filter p df).
Proof.
  unfold ascending. induction 1 as [| a t Hs IH Hall]; simpl; [constructor |].
  destruct (p a); [| assumption].
  constructor; [assumption |].
  rewrite Forall_forall in *. intros y Hy. apply filter_In in Hy. now apply Hall.
Qed.

Lemma filter_all {A : Type} (p : A -> bool) (l : list A) :
  Forall (fun a => p a = true) l -> filter p l = l.
Proof. induction 1 as [| a t Ha _ IH]; simpl; [reflexivity | now rewrite Ha, IH]. Qed.

Lemma filter_none {A : Type} (p : A -> bool) (l : list A) :
  Forall (fun a => p a = false) l -> filter p l = [].
Proof. induction 1 as [| a t Ha _ IH]; simpl; [reflexivity | now rewrite Ha]. Qed.

Lemma filter_filter {A : Type} (p q : A -> bool) (l : list A) :
  filter q (filter p l) = filter (fun a => p a && q a) l.
Proof.
  induction l as [| a t IH]; simpl; [reflexivity |].
  destruct (p a); simpl; [destruct (q a) |]; now rewrite IH.
Qed.

(** On ascending rows the two searched positions cut out exactly the rows
    within the bounds. *)
Lemma drop_before_filter (s : Timestamp) (df : DataFrame) :
  ascending df -> drop_before s df = filter (fun r => ts_leb s (time r)) df.
Proof.
  unfold ascending. induction 1 as [| a t Hs IH Hall]; simpl; [reflexivity |].
  unfold ts_leb at 1. destruct (ts_ltb (time a) s) eqn:E; simpl; [exact IH |].
  f_equal. symmetry. apply filter_all.
  rewrite Forall_forall in *. intros y Hy.
  apply ts_leb_trans with (b := time a); [| now apply Hall].
  unfold ts_leb. now rewrite E.
Qed.

Lemma take_through_filter (e : Timestamp) (df : DataFrame) :
  ascending df -> take_through e df = filter (fun r => ts_leb (time r) e) df.
Proof.
  unfold ascending. induction 1 as [| a t Hs IH Hall]; simpl; [reflexivity |].
  destruct (ts_leb (time a) e) eqn:E; [now rewrite IH |].
  symmetry. apply filter_none.
  rewrite Forall_forall in *. intros y Hy.
  destruct (ts_leb (time y) e) eqn:E2; [| reflexivity].
  rewrite (ts_leb_trans _ _ _ (Hall y Hy) E2) in E. discriminate.
Qed.

Lemma getitem_slice_ascending (start stop : option Timestamp) (df : DataFrame) :
  is_monotonic_increasing (index df) = true ->
  getitem_slice start stop df = Ok (between start stop df).
Proof.
  intros Hm. unfold getitem_slice, between. rewrite Hm. f_equal.
  apply is_monotonic_increasing_ascending in Hm.
  destruct start as [s |], stop as [e |]; unfold in_bounds.
  - rewrite drop_before_filter by assumption.
    rewrite take_through_filter by now apply filter_ascending.
    apply filter_filter.
  - rewrite drop_before_filter by assumption.
    apply filter_ext. intros r. now rewrite andb_true_r.
  - rewrite take_through_filter by assumption. reflexivity.
  - symmetry. apply filter_all. rewrite Forall_forall. reflexivity.
Qed.

(** Whenever a slice returns, it returns the rows within its bounds. *)
Lemma getitem_slice_Ok (start stop : option Timestamp) (df d : DataFrame) :
  getitem_slice start stop df = Ok d -> d = between start stop df.
Proof.
  destruct (is_monotonic_increasing (index df)) eqn:Hm.
  - rewrite getitem_slice_ascending by assumption. now intros [= <-].
  - unfold getitem_slice. rewrite Hm. cbv zeta.
    match goal with |- (if ?b then _ else _) = _ -> _ => destruct b end.
    + now intros [= <-].
    + discriminate.
Qed.

(** A slice with a right bound returns only on an ascending index. *)
Lemma getitem_slice_stop_Ok (start : option Timestamp) (e : Timestamp) (df d : DataFrame) :
  getitem_slice start (Some e) df = Ok d -> is_monotonic_increasing (index df) = true.
Proof.
  unfold getitem_slice. destruct (is_monotonic_increasing (index df)); [reflexivity |].
  cbv zeta. rewrite andb_false_r. discriminate.
Qed.

Lemma getitem_slice_stop_Raise (start : option Timestamp) (e : Timestamp) (df : DataFrame) :
  is_monotonic_increasing (index df) = false ->
  getitem_slice start (Some e) df = Raise KeyError.
Proof.
  intros Hm. unfold getitem_slice. rewrite Hm. cbv zeta. now rewrite andb_false_r.
Qed.

Lemma between_ascending (start stop : option Timestamp) (df : DataFrame) :
  is_monotonic_increasing (index df) = true ->
  is_monotonic_increasing (index (between start stop df)) = true.
Proof.
  rewrite !is_monotonic_increasing_ascending. apply filter_ascending.
Qed.

Lemma between_idem (start stop : option Timestamp) (df : DataFrame) :
  between start stop (between start stop df) = between start stop df.
Proof.
  unfold between. rewrite filter_filter. apply filter_ext.
  intros r. now destruct (in_bounds start stop (time r)).
Qed.

(** ** Phase one, field by field *)

Lemma baseline_between (df : DataFrame) :
  between (Some window_start) (Some window_end) df = baseline df.
Proof. reflexivity. Qed.

Lemma phase1_Ok_ascending (df : DataFrame) (o : Phase1) :
  phase1 df = Ok o -> is_monotonic_increasing (index df) = true.
Proof.
  unfold phase1.
  destruct (getitem_slice (Some window_start) (Some window_end) df) as [w | e] eqn:E1;
    simpl; [| discriminate].
  intros _. now apply getitem_slice_stop_Ok in E1.
Qed.

Lemma phase1_fields (df : DataFrame) (o : Phase1) :
  phase1 df = Ok o ->
  df_date_restricted o = baseline df
  /\ yearly_means o = frame_dropna (agg frame_mean (groupby row_year (baseline df)))
  /\ clim o = agg frame_mean (groupby row_month (baseline df))
  /\ monthly_means o = agg frame_mean (groupby row_year_month (baseline df))
  /\ anom o = sub_on_month (monthly_means o) (clim o)
  /\ mean_anom_per_year o =
       agg (fun g => mean (map snd g))
           (groupby (fun e : (Z * Z) * option Q => fst (fst e)) (series_of tl_mittel (anom o)))
  /\ hottest_years o = keys (nlargest 5 (mean_anom_per_year o)).
Proof.
  intros Hp. pose proof (phase1_Ok_ascending _ _ Hp) as Hm.
  unfold phase1 in Hp.
  rewrite (getitem_slice_ascending _ _ _ Hm) in Hp. unfold bind at 1 in Hp.
  change (mkTs 1991 1 1) with window_start in Hp.
  change (mkTs 2020 12 31) with window_end in Hp.
  rewrite getitem_slice_ascending in Hp by now apply between_ascending.
  rewrite between_idem, baseline_between in Hp. unfold bind in Hp.
  injection Hp as <-. simpl. repeat split; reflexivity.
Qed.

Lemma phase1_ascending (df : DataFrame) :
  is_monotonic_increasing (index df) = true -> exists o, phase1 df = Ok o.
Proof.
  intros Hm. unfold phase1.
  rewrite (getitem_slice_ascending _ _ _ Hm). simpl.
  rewrite getitem_slice_ascending by now apply between_ascending.
  simpl. eexists. reflexivity.
Qed.

Lemma loc_map_values {K} `{KeyLaws K} {V W : Type} (h : K -> V -> W) (k : K) (l : list (K * V)) :
  loc k (map (fun kt => (fst kt, h (fst kt) (snd kt))) l) = option_map (h k) (loc k l).
Proof.
  induction l as [| [k' v] t IH]; simpl; [reflexivity |].
  destruct (keqb k k') eqn:E; [| exact IH].
  apply keqb_eq in E. now subst.
Qed.

Lemma existsb_witness {A : Type} (p : A -> bool) (l : list A) (a : A) :
  In a l -> p a = true -> existsb p l = true.
Proof. intros Hin Hp. apply existsb_exists. now exists a. Qed.

(** ** Anomalies and climatology *)

Lemma dropna_observed (x : list (option Q)) : dropna x = observed x.
Proof.
  induction x as [| [v |] t IH]; simpl; [reflexivity | now rewrite IH | exact IH].
Qed.

(** [mean] is the arithmetic mean of the observed values. *)
Lemma mean_arithmetic (x : list (option Q)) : mean x = arithmetic_mean x.
Proof.
  unfold mean, arithmetic_mean. rewrite dropna_observed.
  destruct (observed x); reflexivity.
Qed.

(** A cell of a frame difference is the difference of the two cells. *)
Lemma cell_temps_sub (c : Column) (a b : Temps) :
  cell c (temps_sub a b)
  = match cell c a, cell c b with
    | Some x, Some y => Some (x - y)%Q
    | _, _ => None
    end.
Proof. destruct c; simpl; unfold fsub; reflexivity. Qed.

Lemma filter_map_comm {A B : Type} (p : B -> bool) (g : A -> B) (l : list A) :
  filter p (map g l) = map g (filter (fun a => p (g a)) l).
Proof.
  induction l as [| a t IH]; simpl; [reflexivity |].
  destruct (p (g a)); simpl; now rewrite IH.
Qed.

Lemma existsb_map {A B : Type} (p : B -> bool) (g : A -> B) (l : list A) :
  existsb p (map g l) = existsb (fun a => p (g a)) l.
Proof. induction l as [| a t IH]; simpl; [reflexivity | now rewrite IH]. Qed.

(** C1: for every (year, month) pair present in the baseline data, each of the
    three columns of the anomaly row of (year, month) is the difference
    between the monthly mean of (year, month) and the climatological mean of
    that calendar month (NaN when either of the two is NaN). *)
Theorem anomaly_is_monthly_mean_minus_climatology
  (df : DataFrame) (o : Phase1) (y m : Z) :
  phase1 df = Ok o ->
  (exists r, In r (baseline df) /\ row_year r = y /\ row_month r = m) ->
  exists mm cl an,
    loc (y, m) (monthly_means o) = Some mm
    /\ loc m (clim o) = Some cl
    /\ loc (y, m) (anom o) = Some an
    /\ forall c,
         cell c an
         = match cell c mm, cell c cl with
           | Some a, Some b => Some (a - b)%Q
           | _, _ => None
           end.
Proof.
  intros Hp [r [Hin [Hy Hm]]].
  destruct (phase1_fields _ _ Hp) as (_ & _ & Hcl & Hmm & Han & _).
  assert (E1 : loc (y, m) (monthly_means o)
               = Some (frame_mean (filter (fun a => keqb (row_year_month a) (y, m)) (baseline df)))).
  { rewrite Hmm, loc_agg_groupby.
    rewrite (existsb_witness _ _ r Hin); [reflexivity |].
    apply keqb_eq. unfold row_year_month. now rewrite <- Hy, <- Hm. }
  assert (E2 : loc m (clim o)
               = Some (frame_mean (filter (fun a => keqb (row_month a) m) (baseline df)))).
  { rewrite Hcl, loc_agg_groupby.
    rewrite (existsb_witness _ _ r Hin); [reflexivity |].
    now apply keqb_eq. }
  eexists _, _, _. split; [exact E1 |]. split; [exact E2 |]. split.
  - rewrite Han. unfold sub_on_month.
    rewrite (loc_map_values
               (fun k t => temps_sub t (match loc (snd k) (clim o) with
                                        | Some c => c | None => nan_temps end))).
    rewrite E1. simpl. rewrite E2. reflexivity.
  - intros c. apply cell_temps_sub.
Qed.

Lemma anomaly_is_monthly_mean_minus_climatology_witness :
  phase1 sample_table = Ok sample_phase1
  /\ exists mm cl an,
       loc (1991, 1) (monthly_means sample_phase1) = Some mm
       /\ loc 1 (clim sample_phase1) = Some cl
       /\ loc (1991, 1) (anom sample_phase1) = Some an
       /\ forall c,
            cell c an
            = match cell c mm, cell c cl with
              | Some a, Some b => Some (a - b)%Q
              | _, _ => None
              end.
Proof.
  split; [vm_compute; reflexivity |].
  apply (anomaly_is_monthly_mean_minus_climatology sample_table sample_phase1 1991 1).
  - vm_compute; reflexivity.
  - exists (sample_row 1991 1 1 (Some 2%Q) (Some 1%Q) (Some 3%Q)).
    split; [| split; reflexivity].
    vm_compute. left. reflexivity.
Defined.

Lemma existsb_false_filter {A : Type} (p : A -> bool) (l : list A) :
  existsb p l = false -> filter p l = [].
Proof.
  induction l as [| a t IH]; simpl; [reflexivity |].
  intros E. apply orb_false_iff in E. destruct E as [E1 E2]. rewrite E1. now apply IH.
Qed.

Lemma cell_frame_mean (c : Column) (g : DataFrame) :
  cell c (frame_mean g) = mean (column c g).
Proof. destruct c; reflexivity. Qed.

Lemma baseline_month_rows (df : DataFrame) (m : Z) :
  filter (fun a => keqb (row_month a) m) (baseline df)
  = filter (fun r => in_window (time r) && (row_month r =? m)) df.
Proof.
  unfold baseline. rewrite filter_filter. apply filter_ext.
  intros r. now rewrite keqb_Z.
Qed.

(** C2: the climatology of calendar month [m] is, column by column, the
    arithmetic mean (sum of the observed values over their number) of that
    column over the rows of the input dated within 1991-01-01 .. 2020-12-31
    whose month is [m], and of no other row; the climatology has a row for
    [m] exactly when such a row exists. *)
Theorem climatology_is_window_month_mean
  (df : DataFrame) (o : Phase1) (m : Z) (c : Column) :
  phase1 df = Ok o ->
  (loc m (clim o) = None <->
   forall r, In r df -> in_window (time r) = true -> row_month r <> m)
  /\ match loc m (clim o) with Some t => cell c t | None => None end
     = arithmetic_mean
         (map (fun r => cell c (vals r))
              (filter (fun r => in_window (time r) && (row_month r =? m)) df)).
Proof.
  intros Hp.
  destruct (phase1_fields _ _ Hp) as (_ & _ & Hcl & _).
  rewrite Hcl, loc_agg_groupby.
  destruct (existsb (fun a => keqb (row_month a) m) (baseline df)) eqn:E.
  - split.
    + split; [discriminate |].
      intros Hno. exfalso.
      apply existsb_exists in E. destruct E as [r [Hin Hk]].
      apply filter_In in Hin. destruct Hin as [Hin Hw].
      apply keqb_eq in Hk. exact (Hno r Hin Hw Hk).
    + now rewrite cell_frame_mean, baseline_month_rows, mean_arithmetic.
  - split.
    + split; [| reflexivity].
      intros _ r Hin Hw Hk.
      assert (X : existsb (fun a => keqb (row_month a) m) (baseline df) = true).
      { apply (existsb_witness _ _ r).
        - apply filter_In. now split.
        - now apply keqb_eq. }
      congruence.
    + apply existsb_false_filter in E.
      rewrite baseline_month_rows in E. now rewrite E.
Qed.

Lemma climatology_is_window_month_mean_witness :
  phase1 sample_table = Ok sample_phase1
  /\ (loc 1 (clim sample_phase1) = None <->
      forall r, In r sample_table -> in_window (time r) = true -> row_month r <> 1)
  /\ match loc 1 (clim sample_phase1) with Some t => cell tlmin t | None => None end
     = arithmetic_mean
         (map (fun r => cell tlmin (vals r))
              (filter (fun r => in_window (time r) && (row_month r =? 1)) sample_table)).
Proof.
  split; [vm_compute; reflexivity |].
  apply (climatology_is_window_month_mean sample_table sample_phase1 1 tlmin).
  vm_compute; reflexivity.
Defined.

(** ** Threshold counts *)

Lemma count_ge_column (thr : Q) (c : Column) (p : Row -> bool) (df : DataFrame) :
  count_ge thr (column c (filter p df))
  = count_rows (fun x => p x && reaches thr (cell c (vals x))) df.
Proof.
  unfold count_ge, count_rows, column. f_equal.
  induction df as [| a t IH]; simpl; [reflexivity |].
  destruct (p a); simpl; [| exact IH].
  unfold reaches at 1.
  destruct (cell c (vals a)) as [q |]; [destruct (Qle_bool thr q) |]; simpl; now rewrite IH.
Qed.

(** C4 as worded fails: a day whose maximum is exactly 30 degC and whose
    minimum is exactly 20 degC exceeds neither threshold, yet the script counts
    it as one hot day and one tropical night. *)
Lemma counts_include_the_threshold :
  annual_stats threshold_table = Ok threshold_stats
  /\ at_label heat_eqb threshold_stats 2000 hot_days = Some 1
  /\ at_label heat_eqb threshold_stats 2000 hot_days
     <> Some (count_rows
                (fun x => (row_year x =? 2000) && exceeds 30 (cell tlmax (vals x)))
                threshold_table)
  /\ at_label heat_eqb threshold_stats 2000 tropical_nights = Some 1
  /\ at_label heat_eqb threshold_stats 2000 tropical_nights
     <> Some (count_rows
                (fun x => (row_year x =? 2000) && exceeds 20 (cell tlmin (vals x)))
                threshold_table).
Proof. repeat split; vm_compute; try reflexivity; discriminate. Qed.

(** C4, amended: for every calendar year appearing in the input, the hot-day
    count is the number of rows of that year whose tlmax is at least 30 degC
    and the tropical-night count the number of rows of that year whose tlmin
    is at least 20 degC, each threshold on its own column. *)
Theorem annual_counts_at_or_above_threshold (df : DataFrame) (r : Row) :
  In r df ->
  exists f,
    annual_stats df = Ok f
    /\ at_label heat_eqb f (row_year r) hot_days
       = Some (count_rows
                 (fun x => (row_year x =? row_year r) && reaches 30 (cell tlmax (vals x))) df)
    /\ at_label heat_eqb f (row_year r) tropical_nights
       = Some (count_rows
                 (fun x => (row_year x =? row_year r) && reaches 20 (cell tlmin (vals x))) df).
Proof.
  intros Hin. unfold annual_stats, set_columns. simpl Nat.eqb. cbv iota.
  eexists. split; [reflexivity |].
  unfold at_label. simpl body. simpl labels.
  rewrite loc_agg_groupby.
  rewrite (existsb_witness _ _ r Hin) by apply keqb_refl.
  assert (Hf : forall g : DataFrame,
             filter (fun a => keqb (row_year a) (row_year r)) g
             = filter (fun a => row_year a =? row_year r) g).
  { intros g. apply filter_ext. intros a. apply keqb_Z. }
  split; simpl; rewrite Hf; apply f_equal; apply count_ge_column.
Qed.

Lemma annual_counts_at_or_above_threshold_witness :
  exists f,
    annual_stats sample_table = Ok f
    /\ at_label heat_eqb f 1991 hot_days
       = Some (count_rows
                 (fun x => (row_year x =? 1991) && reaches 30 (cell tlmax (vals x))) sample_table)
    /\ at_label heat_eqb f 1991 tropical_nights
       = Some (count_rows
                 (fun x => (row_year x =? 1991) && reaches 20 (cell tlmin (vals x))) sample_table).
Proof.
  apply (annual_counts_at_or_above_threshold sample_table
           (sample_row 1991 1 2 (Some 4%Q) None (Some 30%Q))).
  simpl. right. right. left. reflexivity.
Defined.

(** ** Phase two *)

Arguments median : simpl never.
Arguments quantile : simpl never.

Lemma between_from (s : Timestamp) (df : DataFrame) :
  between (Some s) None df = filter (fun r => ts_leb s (time r)) df.
Proof. apply filter_ext. intros r. unfold in_bounds. apply andb_true_r. Qed.

Lemma df_custom_years_Ok (df d : DataFrame) :
  df_custom_years df = Ok d -> d = custom_rows df.
Proof.
  unfold df_custom_years.
  destruct (getitem_slice (Some (mkTs 2002 1 1)) (Some (mkTs 2002 12 31)) df) as [a | e] eqn:E1;
    simpl; [| discriminate].
  destruct (getitem_slice (Some (mkTs 2023 1 1)) None df) as [b | e] eqn:E2;
    simpl; [| discriminate].
  intros [= <-].
  apply getitem_slice_Ok in E1, E2. subst a b.
  now rewrite between_from.
Qed.

Lemma df_custom_years_ascending (df : DataFrame) :
  is_monotonic_increasing (index df) = true -> df_custom_years df = Ok (custom_rows df).
Proof.
  intros Hm. unfold df_custom_years.
  rewrite !(getitem_slice_ascending _ _ _ Hm). simpl.
  now rewrite between_from.
Qed.

Lemma monthly_stats_Ok (df : DataFrame) (f : Labelled Z (Column * StatName) (option Q)) :
  monthly_stats df = Ok f ->
  f = mkLabelled stat_labels (agg (agg_dict stats_spec) (groupby row_month (custom_rows df))).
Proof.
  unfold monthly_stats.
  destruct (df_custom_years df) as [d | e] eqn:E; simpl; [| discriminate].
  apply df_custom_years_Ok in E. subst d.
  unfold set_columns. simpl Nat.eqb. cbv iota. now intros [= <-].
Qed.

Lemma monthly_stats_ascending (df : DataFrame) :
  is_monotonic_increasing (index df) = true -> exists f, monthly_stats df = Ok f.
Proof.
  intros Hm. unfold monthly_stats. rewrite (df_custom_years_ascending _ Hm). simpl.
  eexists. reflexivity.
Qed.

(** Reading a labelled cell of the relabelled aggregate: the positions of the
    fifteen aggregated columns and of the fifteen new labels agree. *)
Lemma at_label_stat (df : DataFrame) (m : Z) (c : Column) (s : StatName) (r : Row) :
  In r (custom_rows df) -> row_month r = m ->
  at_label stat_label_eqb
    (mkLabelled stat_labels (agg (agg_dict stats_spec) (groupby row_month (custom_rows df))))
    m (c, s)
  = Some (stat_fun s (column c (filter (fun r => row_month r =? m) (custom_rows df)))).
Proof.
  intros Hin Hm.
  unfold at_label. simpl body. simpl labels.
  rewrite loc_agg_groupby.
  rewrite (existsb_witness _ _ r Hin) by now apply keqb_eq.
  assert (Hx : filter (fun a => keqb (row_month a) m) (custom_rows df)
               = filter (fun r => row_month r =? m) (custom_rows df)).
  { apply filter_ext. intros a. apply keqb_Z. }
  rewrite Hx.
  destruct c, s; reflexivity.
Qed.

(** C6 as worded fails: the sample table and the sample table followed by
    one row of 1950 hold the same rows in 2002 and from 2023 on, yet the
    first yields [monthly_stats] and the second, its rows no longer in date
    order, raises KeyError: a row outside the two ranges decides the result. *)
Lemma row_outside_custom_years_matters :
  rows_of_2002 sample_table = rows_of_2002 sample_table_appended
  /\ rows_from_2023 sample_table = rows_from_2023 sample_table_appended
  /\ monthly_stats sample_table = Ok sample_monthly_stats
  /\ monthly_stats sample_table_appended = Raise KeyError
  /\ monthly_stats sample_table <> monthly_stats sample_table_appended.
Proof.
  assert (H1 : monthly_stats sample_table = Ok sample_monthly_stats) by (vm_compute; reflexivity).
  assert (H2 : monthly_stats sample_table_appended = Raise KeyError) by (vm_compute; reflexivity).
  split; [vm_compute; reflexivity |]. split; [vm_compute; reflexivity |].
  split; [exact H1 |]. split; [exact H2 |].
  rewrite H1, H2. discriminate.
Qed.

(** C6, amended: the per-month order statistics are computed over the rows
    of 2002 and the rows from 2023-01-01 on: two tables in ascending date
    order that hold the same rows in these two date ranges both yield
    [monthly_stats], and the same one, whatever they hold before 2002 or in
    2003 .. 2022. *)
Theorem monthly_stats_depend_only_on_custom_years (df1 df2 : DataFrame) :
  is_monotonic_increasing (index df1) = true ->
  is_monotonic_increasing (index df2) = true ->
  rows_of_2002 df1 = rows_of_2002 df2 ->
  rows_from_2023 df1 = rows_from_2023 df2 ->
  exists f, monthly_stats df1 = Ok f /\ monthly_stats df2 = Ok f.
Proof.
  intros Hm1 Hm2 H02 H23.
  destruct (monthly_stats_ascending _ Hm1) as [f1 H1].
  destruct (monthly_stats_ascending _ Hm2) as [f2 H2].
  exists f1. split; [exact H1 |]. rewrite H2. f_equal.
  apply monthly_stats_Ok in H1, H2. subst f1 f2.
  unfold custom_rows. now rewrite H02, H23.
Qed.

Lemma monthly_stats_depend_only_on_custom_years_witness :
  is_monotonic_increasing (index sample_table) = true
  /\ is_monotonic_increasing (index sample_table_other) = true
  /\ rows_of_2002 sample_table = rows_of_2002 sample_table_other
  /\ rows_from_2023 sample_table = rows_from_2023 sample_table_other
  /\ exists f, monthly_stats sample_table = Ok f /\ monthly_stats sample_table_other = Ok f.
Proof.
  assert (Hm1 : is_monotonic_increasing (index sample_table) = true) by reflexivity.
  assert (Hm2 : is_monotonic_increasing (index sample_table_other) = true) by reflexivity.
  assert (H02 : rows_of_2002 sample_table = rows_of_2002 sample_table_other)
    by (vm_compute; reflexivity).
  assert (H23 : rows_from_2023 sample_table = rows_from_2023 sample_table_other)
    by (vm_compute; reflexivity).
  split; [exact Hm1 |]. split; [exact Hm2 |]. split; [exact H02 |]. split; [exact H23 |].
  exact (monthly_stats_depend_only_on_custom_years
           sample_table sample_table_other Hm1 Hm2 H02 H23).
Defined.

(** ** The whole script *)

Lemma annual_stats_Ok (df : DataFrame) :
  annual_stats df
  = Ok (mkLabelled [hot_days; tropical_nights]
          (agg (agg_dict heat_spec) (groupby row_year df))).
Proof. reflexivity. Qed.

Lemma main_Ok (df : DataFrame) (out : Outputs) :
  main df = Ok out ->
  phase1 df = Ok (out_phase1 out)
  /\ monthly_stats df = Ok (out_monthly_stats out)
  /\ annual_stats df = Ok (out_annual_stats out).
Proof.
  unfold main.
  destruct (phase1 df) as [p1 | e]; simpl; [| discriminate].
  destruct (monthly_stats df) as [ms | e]; simpl; [| discriminate].
  rewrite annual_stats_Ok. simpl. intros [= <-]. simpl. auto.
Qed.

Lemma main_ascending (df : DataFrame) :
  is_monotonic_increasing (index df) = true ->
  exists p1 ms hs,
    phase1 df = Ok p1 /\ monthly_stats df = Ok ms /\ annual_stats df = Ok hs
    /\ main df = Ok (mkOutputs p1 ms hs).
Proof.
  intros Hm.
  destruct (phase1_ascending _ Hm) as [p1 H1].
  destruct (monthly_stats_ascending _ Hm) as [ms H2].
  exists p1, ms. eexists. unfold main. rewrite H1, H2, annual_stats_Ok. simpl.
  repeat split; reflexivity.
Qed.

Lemma valid_ts_month (t : Timestamp) : valid_ts t = true -> 1 <= month t <= 12.
Proof.
  unfold valid_ts. rewrite !andb_true_iff, !Z.leb_le. tauto.
Qed.

Lemma valid_table_row (df : DataFrame) (r : Row) :
  valid_table df = true -> In r df -> 1 <= row_month r <= 12.
Proof.
  unfold valid_table. rewrite forallb_forall. intros Hv Hin.
  apply valid_ts_month. now apply Hv.
Qed.

Lemma In_custom_rows (df : DataFrame) (r : Row) : In r (custom_rows df) -> In r df.
Proof.
  unfold custom_rows, rows_of_2002, rows_from_2023.
  rewrite in_app_iff, !filter_In. tauto.
Qed.

Lemma In_baseline (df : DataFrame) (r : Row) :
  In r (baseline df) <-> In r df /\ in_window (time r) = true.
Proof. unfold baseline. apply filter_In. Qed.

Lemma In_keys_filter {K V : Type} (p : K * V -> bool) (l : list (K * V)) (k : K) :
  In k (keys (filter p l)) -> In k (keys l).
Proof.
  unfold keys. rewrite !in_map_iff. intros [x [E Hin]].
  apply filter_In in Hin. exists x. tauto.
Qed.

(** C8: every index value of [clim] and of [monthly_stats] is a month number
    in 1..12, and every index value of [yearly_means] and of [annual_stats] is
    the calendar year of some input row. *)
Theorem grouping_keys_are_valid_months_and_years (df : DataFrame) (out : Outputs) :
  valid_table df = true ->
  main df = Ok out ->
  (forall m, In m (keys (clim (out_phase1 out))) -> 1 <= m <= 12)
  /\ (forall m, In m (keys (body (out_monthly_stats out))) -> 1 <= m <= 12)
  /\ (forall y, In y (keys (yearly_means (out_phase1 out))) ->
        exists r, In r df /\ row_year r = y)
  /\ (forall y, In y (keys (body (out_annual_stats out))) ->
        exists r, In r df /\ row_year r = y).
Proof.
  intros Hv Hmain.
  destruct (main_Ok _ _ Hmain) as (H1 & H2 & H3).
  destruct (phase1_fields _ _ H1) as (_ & Hym & Hcl & _).
  apply monthly_stats_Ok in H2.
  rewrite annual_stats_Ok in H3. injection H3 as H3.
  split; [| split; [| split]].
  - intros m Hin. rewrite Hcl in Hin.
    apply In_keys_groupby in Hin. destruct Hin as [r [Hin <-]].
    apply In_baseline in Hin. eapply valid_table_row; [exact Hv | tauto].
  - intros m Hin. rewrite H2 in Hin. simpl in Hin.
    apply In_keys_groupby in Hin. destruct Hin as [r [Hin <-]].
    eapply valid_table_row; [exact Hv | now apply In_custom_rows].
  - intros y Hin. rewrite Hym in Hin. unfold frame_dropna in Hin.
    apply In_keys_filter, In_keys_groupby in Hin. destruct Hin as [r [Hin <-]].
    apply In_baseline in Hin. exists r. tauto.
  - intros y Hin. rewrite <- H3 in Hin. simpl in Hin.
    apply In_keys_groupby in Hin. destruct Hin as [r [Hin <-]].
    exists r. tauto.
Qed.

Lemma grouping_keys_are_valid_months_and_years_witness :
  valid_table sample_table = true
  /\ main sample_table = Ok sample_outputs
  /\ (forall m, In m (keys (clim (out_phase1 sample_outputs))) -> 1 <= m <= 12)
  /\ (forall m, In m (keys (body (out_monthly_stats sample_outputs))) -> 1 <= m <= 12)
  /\ (forall y, In y (keys (yearly_means (out_phase1 sample_outputs))) ->
        exists r, In r sample_table /\ row_year r = y)
  /\ (forall y, In y (keys (body (out_annual_stats sample_outputs))) ->
        exists r, In r sample_table /\ row_year r = y).
Proof.
  split; [vm_compute; reflexivity |].
  split; [vm_compute; reflexivity |].
  apply (grouping_keys_are_valid_months_and_years sample_table sample_outputs);
    vm_compute; reflexivity.
Defined.

(** ** Completion *)

(** C9 as worded fails: the table parses and its dates are valid, but its
    rows are out of date order, and the first date slice of the script raises
    KeyError; no phase completes. *)
Lemma unordered_table_raises :
  valid_table unordered_table = true
  /\ phase1 unordered_table = Raise KeyError
  /\ monthly_stats unordered_table = Raise KeyError
  /\ main unordered_table = Raise KeyError.
Proof. repeat split; vm_compute; reflexivity. Qed.

(** C9, amended: for every input table whose rows are in ascending date
    order, the three computation phases and the whole script complete without
    raising, also when a date window, a month group or a year group selects
    no rows. *)
Theorem phases_complete_on_ascending_tables (df : DataFrame) :
  is_monotonic_increasing (index df) = true ->
  exists p1 ms hs,
    phase1 df = Ok p1
    /\ monthly_stats df = Ok ms
    /\ annual_stats df = Ok hs
    /\ main df = Ok (mkOutputs p1 ms hs).
Proof. exact (main_ascending df). Qed.

Lemma phases_complete_on_ascending_tables_witness :
  is_monotonic_increasing (index outside_table) = true
  /\ baseline outside_table = []
  /\ custom_rows outside_table = []
  /\ exists p1 ms hs,
       phase1 outside_table = Ok p1
       /\ monthly_stats outside_table = Ok ms
       /\ annual_stats outside_table = Ok hs
       /\ main outside_table = Ok (mkOutputs p1 ms hs).
Proof.
  split; [reflexivity |]. split; [reflexivity |]. split; [reflexivity |].
  apply (phases_complete_on_ascending_tables outside_table). reflexivity.
Defined.

(** ** Sorted values and interpolated quantiles *)

Lemma Qle_bool_false (x y : Q) : Qle_bool x y = false -> (y <= x)%Q.
Proof.
  intros E. apply Qlt_le_weak, Qnot_le_lt.
  intros L. apply Qle_bool_iff in L. congruence.
Qed.

Lemma In_insert_sorted (x y : Q) (l : list Q) :
  In y (insert_sorted x l) <-> y = x \/ In y l.
Proof.
  induction l as [| h t IH]; simpl; [intuition |].
  destruct (Qle_bool x h); simpl; [intuition |].
  rewrite IH. intuition.
Qed.

Lemma insert_sorted_sorted (x : Q) (l : list Q) :
  StronglySorted Qle l -> StronglySorted Qle (insert_sorted x l).
Proof.
  induction 1 as [| h t Hs IH Hall]; simpl; [repeat constructor |].
  destruct (Qle_bool x h) eqn:E.
  - apply Qle_bool_iff in E.
    constructor; [constructor; assumption |].
    constructor; [assumption |].
    rewrite Forall_forall in *. intros y Hy.
    eapply Qle_trans; [exact E | now apply Hall].
  - apply Qle_bool_false in E.
    constructor; [assumption |].
    rewrite Forall_forall in *. intros y Hy.
    apply In_insert_sorted in Hy. destruct Hy as [-> | Hy]; [assumption | now apply Hall].
Qed.

Lemma sort_values_sorted (l : list Q) : StronglySorted Qle (sort_values l).
Proof.
  induction l as [| x t IH]; simpl; [constructor | now apply insert_sorted_sorted].
Qed.

Lemma insert_sorted_length (x : Q) (l : list Q) :
  length (insert_sorted x l) = S (length l).
Proof.
  induction l as [| h t IH]; simpl; [reflexivity |].
  destruct (Qle_bool x h); simpl; [reflexivity | now rewrite IH].
Qed.

Lemma sort_values_length (l : list Q) : length (sort_values l) = length l.
Proof.
  induction l as [| x t IH]; simpl; [reflexivity |].
  now rewrite insert_sorted_length, IH.
Qed.

(** In a sorted list a later position holds a value at least as large. *)
Lemma sorted_nth_le (v : list Q) (d : Q) :
  StronglySorted Qle v ->
  forall i j, (i <= j)%nat -> (j < length v)%nat -> (nth i v d <= nth j v d)%Q.
Proof.
  induction 1 as [| h t Hs IH Hall]; simpl; intros i j Hij Hj; [lia |].
  destruct i as [| i], j as [| j]; try lia.
  - apply Qle_refl.
  - rewrite Forall_forall in Hall. apply Hall. apply nth_In. lia.
  - apply IH; lia.
Qed.

Lemma quantile_interp (q : Q) (x : list (option Q)) (v0 : Q) (t : list Q) :
  sort_values (dropna x) = v0 :: t ->
  quantile q x
  = Some (interp (v0 :: t) v0 (q * inject_Z (Z.of_nat (length (v0 :: t)) - 1))).
Proof. intros E. unfold quantile. rewrite E. reflexivity. Qed.

Lemma Qfloor_range (h : Q) (n : nat) :
  (0 <= h)%Q -> (h <= inject_Z (Z.of_nat n - 1))%Q ->
  0 <= Qfloor h <= Z.of_nat n - 1.
Proof.
  intros H0 Hn. split.
  - change 0 with (Qfloor 0). now apply Qfloor_resp_le.
  - rewrite <- (Qfloor_Z (Z.of_nat n - 1)). now apply Qfloor_resp_le.
Qed.

Lemma frac_range (h : Q) : (0 <= h - inject_Z (Qfloor h))%Q /\ (h - inject_Z (Qfloor h) <= 1)%Q.
Proof.
  pose proof (Qfloor_le h) as L. pose proof (Qlt_floor h) as U.
  rewrite inject_Z_plus in U. split.
  - lra.
  - apply Qlt_le_weak. change (inject_Z 1) with 1%Q in U. lra.
Qed.

(** The interpolated value lies between its two neighbours. *)
Lemma interp_between (v : list Q) (v0 h : Q) :
  StronglySorted Qle v ->
  (0 <= h)%Q -> (h <= inject_Z (Z.of_nat (length v) - 1))%Q ->
  let lo := Z.to_nat (Qfloor h) in
  let hi := Nat.min (lo + 1) (length v - 1) in
  (nth lo v v0 <= interp v v0 h)%Q /\ (interp v v0 h <= nth hi v v0)%Q.
Proof.
  intros Hs H0 Hn lo hi.
  destruct (Qfloor_range h (length v) H0 Hn) as [F0 Fn].
  destruct (frac_range h) as [G0 G1].
  assert (Hab : (nth lo v v0 <= nth hi v v0)%Q).
  { apply sorted_nth_le; [assumption | subst lo hi; lia | subst lo hi; lia]. }
  unfold interp. fold lo. fold hi.
  set (a := nth lo v v0) in *. set (b := nth hi v v0) in *.
  set (g := (h - inject_Z (Qfloor h))%Q) in *.
  assert (D0 : (0 <= (b - a) * g)%Q) by (apply Qmult_le_0_compat; lra).
  assert (D1 : ((b - a) * g <= (b - a) * 1)%Q).
  { rewrite !(Qmult_comm (b - a)). apply Qmult_le_compat_r; lra. }
  split; lra.
Qed.

(** Interpolation is monotone in the position. *)
Lemma interp_mono (v : list Q) (v0 h1 h2 : Q) :
  StronglySorted Qle v ->
  (0 <= h1)%Q -> (h1 <= h2)%Q -> (h2 <= inject_Z (Z.of_nat (length v) - 1))%Q ->
  (interp v v0 h1 <= interp v v0 h2)%Q.
Proof.
  intros Hs H0 H12 Hn.
  assert (H1n : (h1 <= inject_Z (Z.of_nat (length v) - 1))%Q) by lra.
  assert (H20 : (0 <= h2)%Q) by lra.
  destruct (Qfloor_range h1 _ H0 H1n) as [F10 F1n].
  destruct (Qfloor_range h2 _ H20 Hn) as [F20 F2n].
  pose proof (Qfloor_resp_le _ _ H12) as F12.
  destruct (Z.eq_dec (Qfloor h1) (Qfloor h2)) as [E | N].
  - unfold interp. rewrite E.
    set (lo := Z.to_nat (Qfloor h2)).
    set (hi := Nat.min (lo + 1) (length v - 1)).
    assert (Hab : (nth lo v v0 <= nth hi v v0)%Q).
    { apply sorted_nth_le; [assumption | subst lo hi; lia | subst lo hi; lia]. }
    set (a := nth lo v v0) in *. set (b := nth hi v v0) in *.
    assert (D : ((b - a) * (h1 - inject_Z (Qfloor h2)) <= (b - a) * (h2 - inject_Z (Qfloor h2)))%Q).
    { rewrite !(Qmult_comm (b - a)). apply Qmult_le_compat_r; lra. }
    lra.
  - destruct (interp_between v v0 h1 Hs H0 H1n) as [_ U].
    destruct (interp_between v v0 h2 Hs H20 Hn) as [L _].
    cbv zeta in U, L.
    eapply Qle_trans; [exact U |]. eapply Qle_trans; [| exact L].
    apply sorted_nth_le; [assumption | lia | lia].
Qed.

Lemma Qfloor_half (z : Z) : Qfloor ((1 # 2) * inject_Z z) = z / 2.
Proof. unfold Qfloor, Qmult, inject_Z. simpl. destruct z; reflexivity. Qed.

(** The median is the value interpolated at the middle position. *)
Lemma median_interp (x : list (option Q)) (v0 : Q) (t : list Q) :
  sort_values (dropna x) = v0 :: t ->
  exists md,
    median x = Some md
    /\ (md == interp (v0 :: t) v0 ((1 # 2) * inject_Z (Z.of_nat (length (v0 :: t)) - 1)))%Q.
Proof.
  intros E. unfold median. rewrite E.
  set (v := v0 :: t). set (n := length v).
  assert (Hn : (1 <= n)%nat) by (subst n v; simpl; lia).
  unfold interp. fold n. rewrite Qfloor_half.
  destruct (Nat.odd n) eqn:Hodd.
  - apply Nat.odd_spec in Hodd. destruct Hodd as [k Hk].
    assert (Hd : (n / 2 = k)%nat) by (symmetry; apply (Nat.div_unique _ 2 k 1); lia).
    assert (Hz : (Z.of_nat n - 1) / 2 = Z.of_nat k)
      by (symmetry; apply (Z.div_unique _ 2 (Z.of_nat k) 0); lia).
    eexists. split; [reflexivity |].
    rewrite Hz, Hd, Nat2Z.id.
    assert (G : ((1 # 2) * inject_Z (Z.of_nat n - 1) - inject_Z (Z.of_nat k) == 0)%Q).
    { unfold Qeq, Qminus, Qplus, Qmult, Qopp, inject_Z. cbn [Qnum Qden]. lia. }
    rewrite G. ring.
  - assert (Hev : Nat.even n = true) by (rewrite <- Nat.negb_odd, Hodd; reflexivity).
    apply Nat.even_spec in Hev. destruct Hev as [k Hk].
    assert (Hd : (n / 2 = k)%nat) by (symmetry; apply (Nat.div_unique _ 2 k 0); lia).
    assert (Hz : (Z.of_nat n - 1) / 2 = Z.of_nat k - 1)
      by (symmetry; apply (Z.div_unique _ 2 (Z.of_nat k - 1) 1); lia).
    eexists. split; [reflexivity |].
    rewrite Hz, Hd.
    replace (Z.to_nat (Z.of_nat k - 1)) with (k - 1)%nat by lia.
    replace (Nat.min (k - 1 + 1) (n - 1)) with k by lia.
    assert (G : ((1 # 2) * inject_Z (Z.of_nat n - 1) - inject_Z (Z.of_nat k - 1) == 1 # 2)%Q).
    { unfold Qeq, Qminus, Qplus, Qmult, Qopp, inject_Z. cbn [Qnum Qden]. lia. }
    rewrite G. field.
Qed.

Lemma position_range (q : Q) (n : nat) :
  (1 <= n)%nat -> (0 <= q)%Q -> (q <= 1)%Q ->
  (0 <= q * inject_Z (Z.of_nat n - 1))%Q
  /\ (q * inject_Z (Z.of_nat n - 1) <= inject_Z (Z.of_nat n - 1))%Q.
Proof.
  intros Hn H0 H1.
  assert (Z0 : (0 <= inject_Z (Z.of_nat n - 1))%Q).
  { change 0%Q with (inject_Z 0). rewrite <- Zle_Qle. lia. }
  split.
  - now apply Qmult_le_0_compat.
  - rewrite <- (Qmult_1_l (inject_Z (Z.of_nat n - 1))) at 2.
    now apply Qmult_le_compat_r.
Qed.

(** Quantiles of one sample grow with the probability. *)
Lemma interp_quantile_mono (v : list Q) (v0 q1 q2 : Q) :
  StronglySorted Qle v -> (1 <= length v)%nat ->
  (0 <= q1)%Q -> (q1 <= q2)%Q -> (q2 <= 1)%Q ->
  (interp v v0 (q1 * inject_Z (Z.of_nat (length v) - 1))
   <= interp v v0 (q2 * inject_Z (Z.of_nat (length v) - 1)))%Q.
Proof.
  intros Hs Hn H0 H12 H1.
  assert (Z0 : (0 <= inject_Z (Z.of_nat (length v) - 1))%Q).
  { change 0%Q with (inject_Z 0). rewrite <- Zle_Qle. lia. }
  apply interp_mono; [assumption | | |].
  - apply Qmult_le_0_compat; [assumption | assumption].
  - now apply Qmult_le_compat_r.
  - apply position_range; [assumption | lra | assumption].
Qed.

Lemma dropna_In (x : list (option Q)) (q : Q) : In (Some q) x -> In q (dropna x).
Proof.
  induction x as [| [a |] t IH]; simpl; [tauto | |].
  - intros [[= ->] | Hin]; [now left | right; now apply IH].
  - intros [E | Hin]; [discriminate | now apply IH].
Qed.

Lemma sort_values_nonempty (x : list (option Q)) (q : Q) :
  In (Some q) x -> exists v0 t, sort_values (dropna x) = v0 :: t.
Proof.
  intros Hin. apply dropna_In in Hin.
  destruct (sort_values (dropna x)) as [| v0 t] eqn:E.
  - apply (f_equal (@length Q)) in E. rewrite sort_values_length in E.
    destruct (dropna x); [contradiction | discriminate].
  - now exists v0, t.
Qed.

(** The five order statistics of a sample with an observed value, in order. *)
Lemma order_statistics_chain (x : list (option Q)) (q : Q) :
  In (Some q) x ->
  fle (quantile (1 # 10) x) (quantile (1 # 4) x)
  /\ fle (quantile (1 # 4) x) (median x)
  /\ fle (median x) (quantile (3 # 4) x)
  /\ fle (quantile (3 # 4) x) (quantile (9 # 10) x).
Proof.
  intros Hin. destruct (sort_values_nonempty x q Hin) as [v0 [t E]].
  destruct (median_interp x v0 t E) as [md [Hmd Emd]].
  rewrite !(quantile_interp _ x v0 t E), Hmd. unfold fle.
  assert (Hs : StronglySorted Qle (v0 :: t)) by (rewrite <- E; apply sort_values_sorted).
  assert (Hn : (1 <= length (v0 :: t))%nat) by (simpl; lia).
  rewrite Emd.
  repeat split; apply interp_quantile_mono; try assumption; lra.
Qed.

(** ** The order statistics are the median and the percentiles *)

Lemma insert_sorted_perm (x : Q) (l : list Q) : Permutation (insert_sorted x l) (x :: l).
Proof.
  induction l as [| y t IH]; simpl; [apply Permutation_refl |].
  destruct (Qle_bool x y); [apply Permutation_refl |].
  eapply Permutation_trans; [apply perm_skip; exact IH | apply perm_swap].
Qed.

Lemma sort_values_perm (l : list Q) : Permutation (sort_values l) l.
Proof.
  induction l as [| x t IH]; simpl; [constructor |].
  eapply Permutation_trans; [apply insert_sorted_perm | now apply perm_skip].
Qed.

Lemma sort_values_sample (x : list (option Q)) : sorted_sample x (sort_values (dropna x)).
Proof.
  split; [rewrite <- dropna_observed; apply sort_values_perm | apply sort_values_sorted].
Qed.

Lemma sort_values_empty (x : list (option Q)) : sort_values (dropna x) = [] -> observed x = [].
Proof.
  intros E. apply (f_equal (@length Q)) in E. rewrite sort_values_length in E.
  rewrite <- dropna_observed. now destruct (dropna x).
Qed.

(** [median] computes the median of the observed values. *)
Lemma median_is_median (x : list (option Q)) : is_median x (median x).
Proof.
  unfold median. cbv zeta. pose proof (sort_values_sample x) as Hs.
  destruct (sort_values (dropna x)) as [| v0 t] eqn:E.
  - unfold is_median. now apply sort_values_empty.
  - set (v := v0 :: t) in *.
    assert (Hn : (1 <= length v)%nat) by (subst v; simpl; lia).
    assert (Hd : (length v / 2 < length v)%nat) by (apply Nat.div_lt; lia).
    assert (Hd' : (length v / 2 - 1 < length v)%nat) by lia.
    destruct (Nat.odd (length v)) eqn:Hodd; unfold is_median; exists v;
      (split; [exact Hs |]); (split; [subst v; discriminate |]); rewrite Hodd.
    + rewrite (nth_indep v v0 0%Q Hd). reflexivity.
    + rewrite (nth_indep v v0 0%Q Hd), (nth_indep v v0 0%Q Hd'). field.
Qed.

(** [quantile] computes the linearly interpolated quantile of the observed
    values, for a probability between 0 and 1. *)
Lemma quantile_is_quantile (q : Q) (x : list (option Q)) :
  (0 <= q)%Q -> (q <= 1)%Q -> is_quantile q x (quantile q x).
Proof.
  intros H0 H1. unfold quantile. cbv zeta. pose proof (sort_values_sample x) as Hs.
  destruct (sort_values (dropna x)) as [| v0 t] eqn:E.
  - unfold is_quantile. now apply sort_values_empty.
  - set (v := v0 :: t) in *.
    assert (Hn : (1 <= length v)%nat) by (subst v; simpl; lia).
    destruct (position_range q (length v) Hn H0 H1) as [P0 P1].
    destruct (Qfloor_range _ (length v) P0 P1) as [F0 F1].
    unfold is_quantile. exists v. split; [exact Hs |]. split; [subst v; discriminate |].
    rewrite !(nth_indep v v0 0%Q) by lia.
    reflexivity.
Qed.

Lemma stat_fun_spec (x : list (option Q)) :
  is_median x (stat_fun Median x)
  /\ is_quantile (1 # 4) x (stat_fun P25 x)
  /\ is_quantile (3 # 4) x (stat_fun P75 x)
  /\ is_quantile (1 # 10) x (stat_fun P10 x)
  /\ is_quantile (9 # 10) x (stat_fun P90 x).
Proof.
  split; [apply median_is_median |].
  repeat split; apply quantile_is_quantile; lra.
Qed.

(** C5: for a calendar month with rows in the custom year set and each of the
    three columns, the cells of [monthly_stats] labelled median, p25, p75, p10
    and p90 hold the median and the 25th, 75th, 10th and 90th percentiles
    (by linear interpolation in the sorted observed values) of that column
    over the custom-year rows of that month. *)
Theorem monthly_stats_hold_labelled_order_statistics
  (df : DataFrame) (f : Labelled Z (Column * StatName) (option Q)) (m : Z) (c : Column) :
  monthly_stats df = Ok f ->
  (exists r, In r (custom_rows df) /\ row_month r = m) ->
  let x := map (fun r => cell c (vals r))
               (filter (fun r => row_month r =? m) (custom_rows df)) in
  exists md p25 p75 p10 p90,
    at_label stat_label_eqb f m (c, Median) = Some md /\ is_median x md
    /\ at_label stat_label_eqb f m (c, P25) = Some p25 /\ is_quantile (1 # 4) x p25
    /\ at_label stat_label_eqb f m (c, P75) = Some p75 /\ is_quantile (3 # 4) x p75
    /\ at_label stat_label_eqb f m (c, P10) = Some p10 /\ is_quantile (1 # 10) x p10
    /\ at_label stat_label_eqb f m (c, P90) = Some p90 /\ is_quantile (9 # 10) x p90.
Proof.
  intros Hf [r [Hin Hm]] x.
  apply monthly_stats_Ok in Hf. subst f.
  destruct (stat_fun_spec x) as (S1 & S2 & S3 & S4 & S5).
  exists (stat_fun Median x), (stat_fun P25 x), (stat_fun P75 x),
         (stat_fun P10 x), (stat_fun P90 x).
  split; [exact (at_label_stat df m c Median r Hin Hm) |]. split; [exact S1 |].
  split; [exact (at_label_stat df m c P25 r Hin Hm) |]. split; [exact S2 |].
  split; [exact (at_label_stat df m c P75 r Hin Hm) |]. split; [exact S3 |].
  split; [exact (at_label_stat df m c P10 r Hin Hm) |]. split; [exact S4 |].
  split; [exact (at_label_stat df m c P90 r Hin Hm) | exact S5].
Qed.

Lemma monthly_stats_hold_labelled_order_statistics_witness :
  monthly_stats sample_table = Ok sample_monthly_stats
  /\ let x := map (fun r => cell tl_mittel (vals r))
                  (filter (fun r => row_month r =? 1) (custom_rows sample_table)) in
     exists md p25 p75 p10 p90,
       at_label stat_label_eqb sample_monthly_stats 1 (tl_mittel, Median) = Some md
       /\ is_median x md
       /\ at_label stat_label_eqb sample_monthly_stats 1 (tl_mittel, P25) = Some p25
       /\ is_quantile (1 # 4) x p25
       /\ at_label stat_label_eqb sample_monthly_stats 1 (tl_mittel, P75) = Some p75
       /\ is_quantile (3 # 4) x p75
       /\ at_label stat_label_eqb sample_monthly_stats 1 (tl_mittel, P10) = Some p10
       /\ is_quantile (1 # 10) x p10
       /\ at_label stat_label_eqb sample_monthly_stats 1 (tl_mittel, P90) = Some p90
       /\ is_quantile (9 # 10) x p90.
Proof.
  split; [vm_compute; reflexivity |].
  apply (monthly_stats_hold_labelled_order_statistics sample_table sample_monthly_stats 1 tl_mittel).
  - vm_compute; reflexivity.
  - exists (sample_row 2002 1 5 (Some 7%Q) (Some 1%Q) (Some 3%Q)).
    split; [vm_compute; left; reflexivity | reflexivity].
Defined.

(** C10 as worded fails: January has custom-year data, but no value of
    tl_mittel is observed in it; its order statistics are all NaN, and a NaN
    is not at or below anything. *)
Lemma missing_column_breaks_order :
  monthly_stats missing_column_table = Ok missing_column_stats
  /\ (exists r, In r (custom_rows missing_column_table) /\ row_month r = 1)
  /\ at_label stat_label_eqb missing_column_stats 1 (tl_mittel, P10) = Some None
  /\ at_label stat_label_eqb missing_column_stats 1 (tl_mittel, P25) = Some None
  /\ ~ fle None None.
Proof.
  split; [vm_compute; reflexivity |].
  split.
  - exists (sample_row 2002 1 5 None (Some 1%Q) (Some 3%Q)).
    split; [vm_compute; left; reflexivity | reflexivity].
  - split; [vm_compute; reflexivity |].
    split; [vm_compute; reflexivity |].
    intros [].
Qed.

(** C10, amended: for every calendar month and temperature column with at
    least one observed (non-missing) value in the custom-year data, the
    order statistics of [monthly_stats] satisfy
    p10 <= p25 <= median <= p75 <= p90. *)
Theorem order_statistics_are_ordered
  (df : DataFrame) (f : Labelled Z (Column * StatName) (option Q)) (m : Z) (c : Column) :
  monthly_stats df = Ok f ->
  (exists r q, In r (custom_rows df) /\ row_month r = m /\ cell c (vals r) = Some q) ->
  exists p10 p25 md p75 p90,
    at_label stat_label_eqb f m (c, P10) = Some p10
    /\ at_label stat_label_eqb f m (c, P25) = Some p25
    /\ at_label stat_label_eqb f m (c, Median) = Some md
    /\ at_label stat_label_eqb f m (c, P75) = Some p75
    /\ at_label stat_label_eqb f m (c, P90) = Some p90
    /\ fle p10 p25 /\ fle p25 md /\ fle md p75 /\ fle p75 p90.
Proof.
  intros Hf [r [q [Hin [Hm Hq]]]].
  apply monthly_stats_Ok in Hf. subst f.
  set (x := column c (filter (fun r => row_month r =? m) (custom_rows df))).
  assert (Hx : In (Some q) x).
  { subst x. unfold column. rewrite <- Hq.
    apply (in_map (fun r0 => cell c (vals r0))).
    apply filter_In. split; [assumption |]. now apply Z.eqb_eq. }
  destruct (order_statistics_chain x q Hx) as (O1 & O2 & O3 & O4).
  exists (quantile (1 # 10) x), (quantile (1 # 4) x), (median x),
         (quantile (3 # 4) x), (quantile (9 # 10) x).
  split; [exact (at_label_stat df m c P10 r Hin Hm) |].
  split; [exact (at_label_stat df m c P25 r Hin Hm) |].
  split; [exact (at_label_stat df m c Median r Hin Hm) |].
  split; [exact (at_label_stat df m c P75 r Hin Hm) |].
  split; [exact (at_label_stat df m c P90 r Hin Hm) |].
  auto.
Qed.

Lemma order_statistics_are_ordered_witness :
  monthly_stats sample_table = Ok sample_monthly_stats
  /\ exists p10 p25 md p75 p90,
       at_label stat_label_eqb sample_monthly_stats 1 (tl_mittel, P10) = Some p10
       /\ at_label stat_label_eqb sample_monthly_stats 1 (tl_mittel, P25) = Some p25
       /\ at_label stat_label_eqb sample_monthly_stats 1 (tl_mittel, Median) = Some md
       /\ at_label stat_label_eqb sample_monthly_stats 1 (tl_mittel, P75) = Some p75
       /\ at_label stat_label_eqb sample_monthly_stats 1 (tl_mittel, P90) = Some p90
       /\ fle p10 p25 /\ fle p25 md /\ fle md p75 /\ fle p75 p90.
Proof.
  split; [vm_compute; reflexivity |].
  apply (order_statistics_are_ordered sample_table sample_monthly_stats 1 tl_mittel).
  - vm_compute; reflexivity.
  - exists (sample_row 2002 1 5 (Some 7%Q) (Some 1%Q) (Some 3%Q)), 7%Q.
    split; [vm_compute; left; reflexivity |]. split; reflexivity.
Defined.

(** ** nlargest *)

Section NLargest.
Context {K : Type}.

Lemma insert_desc_perm (e : K * Q) (l : list (K * Q)) :
  Permutation (insert_desc e l) (e :: l).
Proof.
  induction l as [| y t IH]; simpl; [apply Permutation_refl |].
  destruct (Qle_bool (snd y) (snd e)); [apply Permutation_refl |].
  eapply Permutation_trans; [apply perm_skip; exact IH | apply perm_swap].
Qed.

Lemma insert_desc_sorted (e : K * Q) (l : list (K * Q)) :
  StronglySorted desc_val l -> StronglySorted desc_val (insert_desc e l).
Proof.
  induction 1 as [| y t Hs IH Hall]; simpl; [repeat constructor |].
  destruct (Qle_bool (snd y) (snd e)) eqn:E.
  - apply Qle_bool_iff in E.
    constructor; [constructor; assumption |].
    constructor; [exact E |].
    rewrite Forall_forall in *. intros z Hz. unfold desc_val in *.
    eapply Qle_trans; [now apply Hall | exact E].
  - apply Qle_bool_false in E.
    constructor; [assumption |].
    rewrite Forall_forall in *. intros z Hz.
    apply (Permutation_in _ (insert_desc_perm e t)) in Hz.
    destruct Hz as [<- | Hz]; [exact E | now apply Hall].
Qed.

Lemma sort_valued_perm (l : list (K * Q)) :
  Permutation (fold_right insert_desc [] l) l.
Proof.
  induction l as [| e t IH]; simpl; [constructor |].
  eapply Permutation_trans; [apply insert_desc_perm | now apply perm_skip].
Qed.

Lemma sort_valued_sorted (l : list (K * Q)) :
  StronglySorted desc_val (fold_right insert_desc [] l).
Proof.
  induction l as [| e t IH]; simpl; [constructor | now apply insert_desc_sorted].
Qed.

Lemma series_split_perm (s : list (K * option Q)) :
  Permutation (map with_value (series_dropna s) ++ series_nans s) s.
Proof.
  induction s as [| [k [v |]] t IH]; simpl.
  - constructor.
  - now apply perm_skip.
  - apply Permutation_sym, Permutation_cons_app, Permutation_sym, IH.
Qed.

(** The descending order holds the entries of the series, each once. *)
Lemma sort_desc_perm (s : list (K * option Q)) : Permutation (sort_desc s) s.
Proof.
  unfold sort_desc.
  eapply Permutation_trans; [| apply series_split_perm].
  apply Permutation_app_tail, Permutation_map, sort_valued_perm.
Qed.

Lemma sorted_app {A : Type} (R : A -> A -> Prop) (l1 l2 : list A) :
  StronglySorted R l1 -> StronglySorted R l2 ->
  (forall a b, In a l1 -> In b l2 -> R a b) ->
  StronglySorted R (l1 ++ l2).
Proof.
  induction 1 as [| a t Hs IH Hall]; simpl; intros H2 Hx; [assumption |].
  constructor.
  - apply IH; [assumption |]. intros x y Hin1 Hin2. apply Hx; [now right | assumption].
  - rewrite Forall_forall in *. intros y Hy. apply in_app_iff in Hy.
    destruct Hy as [Hy | Hy]; [now apply Hall | apply Hx; [now left | assumption]].
Qed.

Lemma series_nans_None (s : list (K * option Q)) (e : K * option Q) :
  In e (series_nans s) -> snd e = None.
Proof.
  unfold series_nans. rewrite filter_In. intros [_ E].
  destruct (snd e); [discriminate | reflexivity].
Qed.

Lemma all_nan_sorted (l : list (K * option Q)) :
  (forall e, In e l -> snd e = None) -> StronglySorted desc_rank l.
Proof.
  induction l as [| a t IH]; intros Hn; constructor.
  - apply IH. intros e He. apply Hn. now right.
  - rewrite Forall_forall. intros y Hy. unfold desc_rank.
    rewrite (Hn y) by now right. exact I.
Qed.

Lemma map_with_value_sorted (l : list (K * Q)) :
  StronglySorted desc_val l -> StronglySorted desc_rank (map with_value l).
Proof.
  induction 1 as [| a t Hs IH Hall]; simpl; constructor; [assumption |].
  rewrite Forall_forall in *. intros y Hy. apply in_map_iff in Hy.
  destruct Hy as [z [<- Hz]]. exact (Hall z Hz).
Qed.

Lemma sort_desc_sorted (s : list (K * option Q)) : StronglySorted desc_rank (sort_desc s).
Proof.
  unfold sort_desc. apply sorted_app.
  - apply map_with_value_sorted, sort_valued_sorted.
  - apply all_nan_sorted, series_nans_None.
  - intros a b _ Hb. unfold desc_rank. now rewrite (series_nans_None s b Hb).
Qed.

(** In a sorted list everything among the first [n] comes before everything
    after them. *)
Lemma sorted_firstn_skipn {A : Type} (R : A -> A -> Prop) (n : nat) (l : list A) :
  StronglySorted R l ->
  forall a b, In a (firstn n l) -> In b (skipn n l) -> R a b.
Proof.
  intros Hs. revert n.
  induction Hs as [| h t Hs IH Hall]; intros n a b Ha Hb.
  - destruct n; contradiction.
  - destruct n as [| n]; simpl in *; [contradiction |].
    destruct Ha as [<- | Ha].
    + rewrite Forall_forall in Hall. apply Hall.
      rewrite <- (firstn_skipn n t). apply in_app_iff. now right.
    + now apply (IH n).
Qed.

Lemma nlargest_length (n : nat) (s : list (K * option Q)) :
  length (nlargest n s) = Nat.min n (length s).
Proof.
  unfold nlargest. rewrite length_firstn.
  now rewrite (Permutation_length (sort_desc_perm s)).
Qed.

Lemma nlargest_In (n : nat) (s : list (K * option Q)) (e : K * option Q) :
  In e (nlargest n s) -> In e s.
Proof.
  unfold nlargest. intros Hin.
  apply (Permutation_in _ (sort_desc_perm s)).
  rewrite <- (firstn_skipn n (sort_desc s)). apply in_app_iff. now left.
Qed.

Lemma nlargest_keys_NoDup (n : nat) (s : list (K * option Q)) :
  NoDup (keys s) -> NoDup (keys (nlargest n s)).
Proof.
  intros ND. unfold nlargest, keys.
  assert (ND' : NoDup (map fst (sort_desc s))).
  { eapply Permutation_NoDup; [| exact ND].
    apply Permutation_sym, Permutation_map, sort_desc_perm. }
  rewrite <- (firstn_skipn n (sort_desc s)), map_app in ND'.
  now apply NoDup_app_remove_r in ND'.
Qed.

(** An entry kept by [nlargest] ranks at or above every entry left out. *)
Lemma nlargest_ranks (n : nat) (s : list (K * option Q)) (a b : K * option Q) :
  In a (nlargest n s) -> In b s -> ~ In b (nlargest n s) ->
  ranks_below (snd b) (snd a).
Proof.
  unfold nlargest. intros Ha Hb Hnb.
  apply (sorted_firstn_skipn desc_rank n (sort_desc s) (sort_desc_sorted s) a b Ha).
  apply (Permutation_in _ (Permutation_sym (sort_desc_perm s))) in Hb.
  rewrite <- (firstn_skipn n (sort_desc s)) in Hb. apply in_app_iff in Hb.
  tauto.
Qed.

End NLargest.

(** ** The hottest years *)

Lemma mean_anom_per_year_NoDup (df : DataFrame) (o : Phase1) :
  phase1 df = Ok o -> NoDup (keys (mean_anom_per_year o)).
Proof.
  intros Hp. destruct (phase1_fields _ _ Hp) as (_ & _ & _ & _ & _ & Hpy & _).
  rewrite Hpy, keys_agg, keys_groupby. apply unique_keys_NoDup.
Qed.

Lemma existsb_ext {A : Type} (p q : A -> bool) (l : list A) :
  (forall a, p a = q a) -> existsb p l = existsb q l.
Proof.
  intros E. induction l as [| a t IH]; simpl; [reflexivity | now rewrite E, IH].
Qed.

(** C3: [mean_anom_per_year] holds, for each baseline year, the arithmetic
    mean over its months of the tl_mittel anomaly, and [hottest_years] is a
    set of five maximizers of it: five distinct years of the series (all of
    them when the baseline holds fewer than five), each with a mean anomaly at
    least as large as that of every year left out. *)
Theorem hottest_years_are_the_largest_mean_anomalies (df : DataFrame) (o : Phase1) :
  phase1 df = Ok o ->
  (forall y,
      loc y (mean_anom_per_year o)
      = if existsb (fun kt => fst (fst kt) =? y) (anom o)
        then Some (arithmetic_mean
                     (map (fun kt => cell tl_mittel (snd kt))
                          (filter (fun kt => fst (fst kt) =? y) (anom o))))
        else None)
  /\ NoDup (hottest_years o)
  /\ length (hottest_years o) = Nat.min 5 (length (mean_anom_per_year o))
  /\ (forall y, In y (hottest_years o) -> In y (keys (mean_anom_per_year o)))
  /\ (forall y v y' v',
         In y (hottest_years o) ->
         loc y (mean_anom_per_year o) = Some v ->
         loc y' (mean_anom_per_year o) = Some v' ->
         ~ In y' (hottest_years o) ->
         ranks_below v' v).
Proof.
  intros Hp.
  pose proof (mean_anom_per_year_NoDup _ _ Hp) as ND.
  destruct (phase1_fields _ _ Hp) as (_ & _ & _ & _ & _ & Hpy & Hh).
  split; [| split; [| split; [| split]]].
  - intros y. rewrite Hpy, loc_agg_groupby.
    rewrite (existsb_ext _ (fun e : Z * Z * option Q => fst (fst e) =? y))
      by (intros e; apply keqb_Z).
    rewrite (filter_ext _ (fun e : Z * Z * option Q => fst (fst e) =? y))
      by (intros e; apply keqb_Z).
    unfold series_of.
    rewrite (existsb_map (fun e : Z * Z * option Q => fst (fst e) =? y)).
    rewrite (filter_map_comm (fun e : Z * Z * option Q => fst (fst e) =? y)).
    simpl fst. rewrite map_map. simpl snd.
    now rewrite mean_arithmetic.
  - rewrite Hh. now apply nlargest_keys_NoDup.
  - rewrite Hh. unfold keys. now rewrite length_map, nlargest_length.
  - intros y Hy. rewrite Hh in Hy. unfold keys in *.
    apply in_map_iff in Hy. destruct Hy as [e [<- He]].
    apply in_map. now apply nlargest_In in He.
  - intros y v y' v' Hy Hv Hv' Hny'.
    rewrite Hh in Hy, Hny'. unfold keys in Hy.
    apply in_map_iff in Hy. destruct Hy as [a [Ea Ha]].
    assert (Hav : snd a = v).
    { pose proof (nlargest_In _ _ _ Ha) as HaM.
      destruct a as [k w]. simpl in Ea. subst k.
      apply (In_loc _ _ _ ND) in HaM. simpl. congruence. }
    rewrite <- Hav.
    apply (nlargest_ranks 5 (mean_anom_per_year o) a (y', v') Ha).
    + now apply loc_In.
    + intros Hb. apply Hny'. unfold keys.
      change y' with (fst (y', v')). now apply in_map.
Qed.

Lemma hottest_years_are_the_largest_mean_anomalies_witness :
  phase1 seven_year_table = Ok seven_year_phase1
  /\ hottest_years seven_year_phase1 = [1992; 1995; 1997; 1993; 1996]
  /\ (forall y,
         loc y (mean_anom_per_year seven_year_phase1)
         = if existsb (fun kt => fst (fst kt) =? y) (anom seven_year_phase1)
           then Some (arithmetic_mean
                        (map (fun kt => cell tl_mittel (snd kt))
                             (filter (fun kt => fst (fst kt) =? y) (anom seven_year_phase1))))
           else None)
  /\ NoDup (hottest_years seven_year_phase1)
  /\ length (hottest_years seven_year_phase1)
     = Nat.min 5 (length (mean_anom_per_year seven_year_phase1))
  /\ (forall y, In y (hottest_years seven_year_phase1) ->
                In y (keys (mean_anom_per_year seven_year_phase1)))
  /\ (forall y v y' v',
         In y (hottest_years seven_year_phase1) ->
         loc y (mean_anom_per_year seven_year_phase1) = Some v ->
         loc y' (mean_anom_per_year seven_year_phase1) = Some v' ->
         ~ In y' (hottest_years seven_year_phase1) ->
         ranks_below v' v).
Proof.
  split; [vm_compute; reflexivity |].
  split; [vm_compute; reflexivity |].
  apply (hottest_years_are_the_largest_mean_anomalies seven_year_table seven_year_phase1).
  vm_compute; reflexivity.
Defined.

(** ** Dependence on the window *)

Lemma in_window_year (t : Timestamp) : in_window t = true -> 1991 <= year t <= 2020.
Proof.
  unfold in_window. rewrite andb_true_iff, !ts_leb_spec. simpl. lia.
Qed.

Lemma keys_sub_on_month (mm : list ((Z * Z) * Temps)) (cl : list (Z * Temps)) :
  keys (sub_on_month mm cl) = keys mm.
Proof. unfold keys, sub_on_month. rewrite map_map. reflexivity. Qed.

(** Every year of the yearly anomaly series is the year of a baseline row. *)
Lemma mean_anom_per_year_years (df : DataFrame) (o : Phase1) (y : Z) :
  phase1 df = Ok o -> In y (keys (mean_anom_per_year o)) ->
  exists r, In r (baseline df) /\ row_year r = y.
Proof.
  intros Hp Hy.
  destruct (phase1_fields _ _ Hp) as (_ & _ & _ & Hmm & Han & Hpy & _).
  rewrite Hpy in Hy. apply In_keys_groupby in Hy. destruct Hy as [e [He <-]].
  unfold series_of in He. apply in_map_iff in He. destruct He as [kt [<- Hkt]]. simpl.
  assert (Hk : In (fst kt) (keys (anom o))) by (unfold keys; now apply in_map).
  rewrite Han, keys_sub_on_month, Hmm in Hk.
  apply In_keys_groupby in Hk. destruct Hk as [r [Hr Er]].
  exists r. split; [assumption |]. now rewrite <- Er.
Qed.

(** C7 as worded fails: the seven-year table and the seven-year table
    followed by one row of 1985 hold the same rows in the window, yet the
    first yields the four results and the second, its rows no longer in date
    order, raises KeyError: a row outside the window decides the result. *)
Lemma row_outside_window_matters :
  baseline seven_year_table = baseline seven_year_table_appended
  /\ phase1 seven_year_table = Ok seven_year_phase1
  /\ phase1 seven_year_table_appended = Raise KeyError
  /\ phase1 seven_year_table <> phase1 seven_year_table_appended.
Proof.
  assert (H1 : phase1 seven_year_table = Ok seven_year_phase1) by (vm_compute; reflexivity).
  assert (H2 : phase1 seven_year_table_appended = Raise KeyError) by (vm_compute; reflexivity).
  split; [vm_compute; reflexivity |].
  split; [exact H1 |]. split; [exact H2 |].
  rewrite H1, H2. discriminate.
Qed.

(** C7, amended: for tables in ascending date order the climatology, the
    monthly means, the anomaly series and the five hottest years are
    determined by the rows dated within 1991-01-01 .. 2020-12-31: two such
    tables with the same rows in that window both complete phase one with
    the same four results; and every hottest year lies between 1991 and
    2020. *)
Theorem phase_one_depends_only_on_window (df1 df2 : DataFrame) :
  is_monotonic_increasing (index df1) = true ->
  is_monotonic_increasing (index df2) = true ->
  baseline df1 = baseline df2 ->
  exists o1 o2,
    phase1 df1 = Ok o1
    /\ phase1 df2 = Ok o2
    /\ clim o1 = clim o2
    /\ monthly_means o1 = monthly_means o2
    /\ anom o1 = anom o2
    /\ hottest_years o1 = hottest_years o2
    /\ forall y, In y (hottest_years o1) -> 1991 <= y <= 2020.
Proof.
  intros Hm1 Hm2 Hb.
  destruct (phase1_ascending _ Hm1) as [o1 H1].
  destruct (phase1_ascending _ Hm2) as [o2 H2].
  exists o1, o2. split; [exact H1 |]. split; [exact H2 |].
  pose proof (phase1_fields _ _ H1) as (_ & _ & Hcl1 & Hmm1 & Han1 & Hpy1 & Hh1).
  pose proof (phase1_fields _ _ H2) as (_ & _ & Hcl2 & Hmm2 & Han2 & Hpy2 & Hh2).
  assert (Ecl : clim o1 = clim o2) by (rewrite Hcl1, Hcl2, Hb; reflexivity).
  assert (Emm : monthly_means o1 = monthly_means o2) by (rewrite Hmm1, Hmm2, Hb; reflexivity).
  assert (Ean : anom o1 = anom o2) by (rewrite Han1, Han2, Ecl, Emm; reflexivity).
  assert (Epy : mean_anom_per_year o1 = mean_anom_per_year o2)
    by (rewrite Hpy1, Hpy2, Ean; reflexivity).
  split; [exact Ecl |]. split; [exact Emm |]. split; [exact Ean |].
  split; [rewrite Hh1, Hh2, Epy; reflexivity |].
  intros y Hy. rewrite Hh1 in Hy. unfold keys in Hy.
  apply in_map_iff in Hy. destruct Hy as [e [<- He]].
  apply nlargest_In in He.
  assert (Hk : In (fst e) (keys (mean_anom_per_year o1))) by (unfold keys; now apply in_map).
  destruct (mean_anom_per_year_years _ _ _ H1 Hk) as [r [Hr <-]].
  apply In_baseline in Hr. apply in_window_year. tauto.
Qed.

Lemma phase_one_depends_only_on_window_witness :
  is_monotonic_increasing (index seven_year_table) = true
  /\ is_monotonic_increasing (index seven_year_table_other) = true
  /\ baseline seven_year_table = baseline seven_year_table_other
  /\ exists o1 o2,
       phase1 seven_year_table = Ok o1
       /\ phase1 seven_year_table_other = Ok o2
       /\ clim o1 = clim o2
       /\ monthly_means o1 = monthly_means o2
       /\ anom o1 = anom o2
       /\ hottest_years o1 = hottest_years o2
       /\ forall y, In y (hottest_years o1) -> 1991 <= y <= 2020.
Proof.
  assert (Hm1 : is_monotonic_increasing (index seven_year_table) = true) by reflexivity.
  assert (Hm2 : is_monotonic_increasing (index seven_year_table_other) = true) by reflexivity.
  assert (Hb : baseline seven_year_table = baseline seven_year_table_other)
    by (vm_compute; reflexivity).
  split; [exact Hm1 |]. split; [exact Hm2 |]. split; [exact Hb |].
  exact (phase_one_depends_only_on_window
           seven_year_table seven_year_table_other Hm1 Hm2 Hb).
Defined.

(** * Further properties of the script *)

(** ** Date slices *)

(** X1: a slice with a right bound (lines 23, 27 and the first slice of line
    73) returns, on an index in ascending order, exactly the rows dated
    within the two bounds, both included and in table order; on any other
    index it raises KeyError. *)
Theorem slice_with_right_bound (start : option Timestamp) (e : Timestamp) (df : DataFrame) :
  getitem_slice start (Some e) df
  = if is_monotonic_increasing (index df)
    then Ok (filter (fun r => in_bounds start (Some e) (time r)) df)
    else Raise KeyError.
Proof.
  destruct (is_monotonic_increasing (index df)) eqn:Hm.
  - now rewrite getitem_slice_ascending.
  - now apply getitem_slice_stop_Raise.
Qed.

(** X2: the open-ended slice [df[s:]] (the second slice of line 73) returns
    the rows dated [s] or later, in table order, when the index is ascending
    or holds the date [s] itself; otherwise it raises KeyError. *)
Theorem slice_without_right_bound (s : Timestamp) (df : DataFrame) :
  getitem_slice (Some s) None df
  = if is_monotonic_increasing (index df) || existsb (ts_eqb s) (index df)
    then Ok (filter (fun r => ts_leb s (time r)) df)
    else Raise KeyError.
Proof.
  destruct (is_monotonic_increasing (index df)) eqn:Hm; simpl.
  - rewrite getitem_slice_ascending by assumption. now rewrite between_from.
  - unfold getitem_slice. rewrite Hm. cbv zeta. rewrite andb_true_r.
    destruct (existsb (ts_eqb s) (index df)); [| reflexivity].
    f_equal. apply filter_ext. intros r. unfold in_bounds. apply andb_true_r.
Qed.

(** X3: the script either completes, on a table in ascending date order, or
    raises KeyError, on any other table; relabelling the aggregated columns
    never raises ValueError. *)
Theorem main_completes_or_raises_KeyError (df : DataFrame) :
  (is_monotonic_increasing (index df) = true /\ exists out, main df = Ok out)
  \/ (is_monotonic_increasing (index df) = false
      /\ phase1 df = Raise KeyError
      /\ monthly_stats df = Raise KeyError
      /\ main df = Raise KeyError).
Proof.
  destruct (is_monotonic_increasing (index df)) eqn:Hm.
  - left. split; [reflexivity |].
    destruct (main_ascending df Hm) as (p1 & ms & hs & _ & _ & _ & Hmain).
    now exists (mkOutputs p1 ms hs).
  - right. split; [reflexivity |].
    assert (H1 : phase1 df = Raise KeyError).
    { unfold phase1. now rewrite (getitem_slice_stop_Raise _ _ _ Hm). }
    assert (H2 : monthly_stats df = Raise KeyError).
    { unfold monthly_stats, df_custom_years.
      now rewrite (getitem_slice_stop_Raise _ _ _ Hm). }
    split; [exact H1 |]. split; [exact H2 |].
    unfold main. now rewrite H1.
Qed.

(** X4: the second slice of phase one (line 27, by month strings) selects
    nothing new: the frame the climatology is grouped from is the window
    slice of line 23 itself, and it raises exactly when that slice raises. *)
Theorem df_clim_is_the_window_slice (df : DataFrame) :
  df_clim df = getitem_slice (Some window_start) (Some window_end) df.
Proof.
  unfold df_clim.
  destruct (is_monotonic_increasing (index df)) eqn:Hm.
  - rewrite (getitem_slice_ascending _ _ _ Hm). simpl.
    change (mkTs 1991 1 1) with window_start.
    change (mkTs 2020 12 31) with window_end.
    rewrite getitem_slice_ascending by now apply between_ascending.
    now rewrite between_idem.
  - now rewrite (getitem_slice_stop_Raise _ _ _ Hm).
Qed.

(** ** Yearly means *)

Lemma loc_absent {K} `{KeyLaws K} {V : Type} (k : K) (l : list (K * V)) :
  ~ In k (keys l) -> loc k l = None.
Proof.
  intros Hn. destruct (loc k l) as [v |] eqn:E; [| reflexivity].
  exfalso. apply Hn. apply loc_In in E. unfold keys.
  change k with (fst (k, v)). now apply in_map.
Qed.

Lemma loc_filter {K} `{KeyLaws K} {V : Type} (p : K * V -> bool) (k : K) (l : list (K * V)) :
  NoDup (keys l) ->
  loc k (filter p l)
  = match loc k l with
    | Some v => if p (k, v) then Some v else None
    | None => None
    end.
Proof.
  induction l as [| [k' v'] t IH]; simpl; intros ND; [reflexivity |].
  inversion ND as [| ? ? Hnot ND']; subst.
  destruct (keqb k k') eqn:E.
  - apply keqb_eq in E. subst k'.
    destruct (p (k, v')) eqn:Ep; simpl.
    + now rewrite keqb_refl.
    + apply loc_absent. intros Hin. apply Hnot. now apply In_keys_filter in Hin.
  - destruct (p (k', v')); simpl; [rewrite E |]; now apply IH.
Qed.

Lemma existsb_filter {A : Type} (p : A -> bool) (l : list A) :
  existsb p l = match filter p l with [] => false | _ :: _ => true end.
Proof.
  induction l as [| a t IH]; simpl; [reflexivity |].
  destruct (p a); simpl; [reflexivity | exact IH].
Qed.

(** X5: [yearly_means] (line 24) holds, for a year with baseline rows, the
    arithmetic means of the three columns over the input rows of that year
    dated within the window, provided each column has an observed value
    there; a year with a column without any observed value, and a year
    without baseline rows, has no row. *)
Theorem yearly_means_rows (df : DataFrame) (o : Phase1) (y : Z) :
  phase1 df = Ok o ->
  let rows := filter (fun r => in_window (time r) && (row_year r =? y)) df in
  loc y (yearly_means o)
  = match rows with
    | [] => None
    | _ :: _ =>
        match arithmetic_mean (map (fun r => c_mittel (vals r)) rows),
              arithmetic_mean (map (fun r => c_min (vals r)) rows),
              arithmetic_mean (map (fun r => c_max (vals r)) rows) with
        | Some a, Some b, Some c => Some (mkTemps (Some a) (Some b) (Some c))
        | _, _, _ => None
        end
    end.
Proof.
  intros Hp rows. destruct (phase1_fields _ _ Hp) as (_ & Hym & _).
  rewrite Hym. unfold frame_dropna.
  rewrite loc_filter by (rewrite keys_agg, keys_groupby; apply unique_keys_NoDup).
  rewrite loc_agg_groupby, existsb_filter.
  assert (Hrows : filter (fun a => keqb (row_year a) y) (baseline df) = rows).
  { subst rows. unfold baseline. rewrite filter_filter. apply filter_ext.
    intros r. now rewrite keqb_Z. }
  rewrite Hrows.
  destruct rows as [| r0 t] eqn:Er; [reflexivity |].
  rewrite <- Er. simpl snd. unfold frame_mean, column, has_nan. simpl.
  rewrite !mean_arithmetic.
  destruct (arithmetic_mean (map (fun r => c_mittel (vals r)) rows)),
           (arithmetic_mean (map (fun r => c_min (vals r)) rows)),
           (arithmetic_mean (map (fun r => c_max (vals r)) rows)); reflexivity.
Qed.

Lemma yearly_means_rows_witness :
  phase1 sample_table = Ok sample_phase1
  /\ let rows := filter (fun r => in_window (time r) && (row_year r =? 1991)) sample_table in
     loc 1991 (yearly_means sample_phase1)
     = match rows with
       | [] => None
       | _ :: _ =>
           match arithmetic_mean (map (fun r => c_mittel (vals r)) rows),
                 arithmetic_mean (map (fun r => c_min (vals r)) rows),
                 arithmetic_mean (map (fun r => c_max (vals r)) rows) with
           | Some a, Some b, Some c => Some (mkTemps (Some a) (Some b) (Some c))
           | _, _, _ => None
           end
       end.
Proof.
  split; [vm_compute; reflexivity |].
  apply (yearly_means_rows sample_table sample_phase1 1991).
  vm_compute; reflexivity.
Defined.

(** ** The custom years *)

Lemma ascending_tail (a : Row) (t : DataFrame) :
  ascending (a :: t) ->
  ascending t /\ forall r, In r t -> ts_leb (time a) (time r) = true.
Proof.
  unfold ascending. intros Hs. inversion Hs as [| ? ? Hs' Hall]; subst.
  split; [assumption |]. now rewrite Forall_forall in Hall.
Qed.

(** On ascending rows, concatenating the 2002 rows and the rows from 2023 on
    is filtering the table by the union of the two ranges. *)
Lemma custom_rows_filter (df : DataFrame) :
  ascending df ->
  custom_rows df
  = filter (fun r => (ts_leb (mkTs 2002 1 1) (time r) && ts_leb (time r) (mkTs 2002 12 31))
                     || ts_leb (mkTs 2023 1 1) (time r)) df.
Proof.
  unfold custom_rows, rows_of_2002, rows_from_2023.
  induction df as [| a t IH]; intros Ha; [reflexivity |].
  apply ascending_tail in Ha. destruct Ha as [Ht Hall]. specialize (IH Ht).
  simpl.
  destruct (ts_leb (mkTs 2023 1 1) (time a)) eqn:E23.
  - assert (E02 : ts_leb (time a) (mkTs 2002 12 31) = false).
    { apply not_true_iff_false. intros X.
      apply ts_leb_spec in E23, X. simpl in E23, X. lia. }
    rewrite E02, andb_false_r. simpl.
    assert (Hnone : filter (fun r => ts_leb (mkTs 2002 1 1) (time r)
                                     && ts_leb (time r) (mkTs 2002 12 31)) t = []).
    { apply filter_none. rewrite Forall_forall. intros r Hr.
      apply andb_false_iff. right. apply not_true_iff_false. intros X.
      specialize (Hall r Hr).
      apply ts_leb_spec in E23, X, Hall. simpl in E23, X. lia. }
    rewrite Hnone in *. simpl in *. now rewrite IH.
  - rewrite orb_false_r.
    destruct (ts_leb (mkTs 2002 1 1) (time a) && ts_leb (time a) (mkTs 2002 12 31));
      simpl; now rewrite IH.
Qed.

(** X6: on a table in ascending date order, [df_custom_years] (line 73) is
    the table filtered to the rows dated within 2002 or from 2023-01-01 on:
    every such row once, in table order, so the concatenation is again in
    ascending date order. *)
Theorem df_custom_years_of_ordered_table (df : DataFrame) :
  is_monotonic_increasing (index df) = true ->
  exists d,
    df_custom_years df = Ok d
    /\ d = filter (fun r => (ts_leb (mkTs 2002 1 1) (time r)
                             && ts_leb (time r) (mkTs 2002 12 31))
                            || ts_leb (mkTs 2023 1 1) (time r)) df
    /\ is_monotonic_increasing (index d) = true.
Proof.
  intros Hm. exists (custom_rows df).
  split; [now apply df_custom_years_ascending |].
  pose proof Hm as Ha. apply is_monotonic_increasing_ascending in Ha.
  rewrite (custom_rows_filter df Ha).
  split; [reflexivity |].
  apply is_monotonic_increasing_ascending. now apply filter_ascending.
Qed.

Lemma df_custom_years_of_ordered_table_witness :
  exists d,
    df_custom_years sample_table = Ok d
    /\ d = filter (fun r => (ts_leb (mkTs 2002 1 1) (time r)
                             && ts_leb (time r) (mkTs 2002 12 31))
                            || ts_leb (mkTs 2023 1 1) (time r)) sample_table
    /\ is_monotonic_increasing (index d) = true.
Proof.
  apply (df_custom_years_of_ordered_table sample_table). reflexivity.
Defined.

(** ** Slices of valid dates are whole calendar years *)

Lemma valid_ts_day (t : Timestamp) : valid_ts t = true -> 1 <= day t <= 31.
Proof.
  unfold valid_ts, days_in_month. rewrite !andb_true_iff, !Z.leb_le.
  intros [[[_ _] D1] D2]. split; [assumption |].
  destruct (month t =? 2); [destruct (is_leap_year (year t)); lia |].
  destruct ((month t =? 4) || (month t =? 6) || (month t =? 9) || (month t =? 11)); lia.
Qed.

Lemma valid_in_window (t : Timestamp) :
  valid_ts t = true -> in_window t = (1991 <=? year t) && (year t <=? 2020).
Proof.
  intros Hv. pose proof (valid_ts_month t Hv). pose proof (valid_ts_day t Hv).
  apply eq_true_iff_eq. unfold in_window.
  rewrite !andb_true_iff, !ts_leb_spec, !Z.leb_le. simpl. lia.
Qed.

Lemma valid_in_2002 (t : Timestamp) :
  valid_ts t = true ->
  ts_leb (mkTs 2002 1 1) t && ts_leb t (mkTs 2002 12 31) = (year t =? 2002).
Proof.
  intros Hv. pose proof (valid_ts_month t Hv). pose proof (valid_ts_day t Hv).
  apply eq_true_iff_eq.
  rewrite !andb_true_iff, !ts_leb_spec, Z.eqb_eq. simpl. lia.
Qed.

Lemma valid_from_2023 (t : Timestamp) :
  valid_ts t = true -> ts_leb (mkTs 2023 1 1) t = (2023 <=? year t).
Proof.
  intros Hv. pose proof (valid_ts_month t Hv). pose proof (valid_ts_day t Hv).
  apply eq_true_iff_eq. rewrite ts_leb_spec, Z.leb_le. simpl. lia.
Qed.

Lemma filter_ext_valid (p q : Row -> bool) (df : DataFrame) :
  valid_table df = true ->
  (forall r, valid_ts (time r) = true -> p r = q r) ->
  filter p df = filter q df.
Proof.
  unfold valid_table. rewrite forallb_forall. intros Hv Hpq.
  apply filter_ext_in. intros r Hr. apply Hpq. now apply Hv.
Qed.

(** X7: for valid dates the date slices of the script (lines 23 and 73)
    return whole calendar years: on a table in ascending date order the
    window slice returns the rows of the years 1991 to 2020 and
    [df_custom_years] the rows of the year 2002 followed by the rows of the
    years from 2023 on (on any other table both raise KeyError); whenever
    phase one completes, [df_date_restricted] is the rows of 1991 to 2020. *)
Theorem slices_select_whole_years (df : DataFrame) :
  valid_table df = true ->
  getitem_slice (Some window_start) (Some window_end) df
  = (if is_monotonic_increasing (index df)
     then Ok (filter year_in_window df)
     else Raise KeyError)
  /\ df_custom_years df
     = (if is_monotonic_increasing (index df)
        then Ok (filter (fun r => row_year r =? 2002) df
                 ++ filter (fun r => 2023 <=? row_year r) df)
        else Raise KeyError)
  /\ forall o, phase1 df = Ok o -> df_date_restricted o = filter year_in_window df.
Proof.
  intros Hv.
  assert (Eb : baseline df = filter year_in_window df).
  { apply filter_ext_valid; [assumption |]. intros r Hr. now apply valid_in_window. }
  assert (E02 : rows_of_2002 df = filter (fun r => row_year r =? 2002) df).
  { apply filter_ext_valid; [assumption |]. intros r Hr. now apply valid_in_2002. }
  assert (E23 : rows_from_2023 df = filter (fun r => 2023 <=? row_year r) df).
  { apply filter_ext_valid; [assumption |]. intros r Hr. now apply valid_from_2023. }
  split; [| split].
  - destruct (is_monotonic_increasing (index df)) eqn:Hm.
    + now rewrite (getitem_slice_ascending _ _ _ Hm), baseline_between, Eb.
    + now apply getitem_slice_stop_Raise.
  - destruct (is_monotonic_increasing (index df)) eqn:Hm.
    + rewrite (df_custom_years_ascending _ Hm). unfold custom_rows. now rewrite E02, E23.
    + unfold df_custom_years. now rewrite (getitem_slice_stop_Raise _ _ _ Hm).
  - intros o Hp. destruct (phase1_fields _ _ Hp) as (Hr & _). now rewrite Hr, Eb.
Qed.

Lemma slices_select_whole_years_witness :
  valid_table sample_table = true
  /\ getitem_slice (Some window_start) (Some window_end) sample_table
     = (if is_monotonic_increasing (index sample_table)
        then Ok (filter year_in_window sample_table)
        else Raise KeyError)
  /\ df_custom_years sample_table
     = (if is_monotonic_increasing (index sample_table)
        then Ok (filter (fun r => row_year r =? 2002) sample_table
                 ++ filter (fun r => 2023 <=? row_year r) sample_table)
        else Raise KeyError)
  /\ forall o, phase1 sample_table = Ok o ->
               df_date_restricted o = filter year_in_window sample_table.
Proof.
  split; [reflexivity |].
  apply (slices_select_whole_years sample_table). reflexivity.
Defined.

(** ** Phase three: the groups partition the table *)

Lemma list_sum_cons (n : nat) (l : list nat) : list_sum (n :: l) = (n + list_sum l)%nat.
Proof. reflexivity. Qed.

Section Partition.
Context {K : Type} `{KeyLaws K} {A : Type}.

Lemma indicator_none (x : K) (ks : list K) :
  ~ In x ks -> list_sum (map (fun k => if keqb x k then 1%nat else 0%nat) ks) = 0%nat.
Proof.
  induction ks as [| h t IH]; simpl; intros Hn; [reflexivity |].
  destruct (keqb x h) eqn:E.
  - apply keqb_eq in E. subst. exfalso. apply Hn. now left.
  - apply IH. intros Hin. apply Hn. now right.
Qed.

Lemma indicator_once (x : K) (ks : list K) :
  NoDup ks -> In x ks ->
  list_sum (map (fun k => if keqb x k then 1%nat else 0%nat) ks) = 1%nat.
Proof.
  induction 1 as [| h t Hnot ND IH]; simpl; intros Hin; [contradiction |].
  destruct (keqb x h) eqn:E.
  - apply keqb_eq in E. subst. now rewrite indicator_none.
  - destruct Hin as [-> | Hin]; [now rewrite keqb_refl in E | now apply IH].
Qed.

Lemma group_sizes_cons (key : A -> K) (p : A -> bool) (a : A) (t : list A) (ks : list K) :
  list_sum (map (fun k => length (filter (fun x => keqb (key x) k && p x) (a :: t))) ks)
  = (list_sum (map (fun k => if keqb (key a) k then (if p a then 1 else 0) else 0) ks)
     + list_sum (map (fun k => length (filter (fun x => keqb (key x) k && p x) t)) ks))%nat.
Proof.
  induction ks as [| k ks IH]; [reflexivity |].
  rewrite !map_cons, !list_sum_cons, IH. cbn [filter].
  destruct (keqb (key a) k), (p a); simpl; lia.
Qed.

Lemma indicator_scaled (x : K) (n : nat) (ks : list K) :
  list_sum (map (fun k => if keqb x k then n else 0%nat) ks)
  = (n * list_sum (map (fun k => if keqb x k then 1 else 0) ks))%nat.
Proof.
  induction ks as [| k ks IH]; simpl; [lia |].
  rewrite IH. destruct (keqb x k); lia.
Qed.

(** Every element satisfying [p] is counted in the group of its key, and in
    no other. *)
Lemma group_sizes_add_up (key : A -> K) (p : A -> bool) (l : list A) (ks : list K) :
  NoDup ks -> (forall a, In a l -> In (key a) ks) ->
  list_sum (map (fun k => length (filter (fun x => keqb (key x) k && p x) l)) ks)
  = length (filter p l).
Proof.
  intros ND. induction l as [| a t IH]; intros Hk.
  - simpl. induction ks as [| k ks IHk]; simpl; [reflexivity |].
    inversion ND; subst. now apply IHk.
  - rewrite group_sizes_cons, indicator_scaled.
    rewrite indicator_once by (try assumption; apply Hk; now left).
    rewrite IH by (intros x Hx; apply Hk; now right).
    simpl. destruct (p a); simpl; lia.
Qed.

End Partition.

Lemma flat_map_map_singleton {A B C : Type} (f : B -> list C) (g : A -> B) (h : A -> C)
  (l : list A) :
  (forall x, f (g x) = [h x]) -> flat_map f (map g l) = map h l.
Proof.
  intros E. induction l as [| a t IH]; simpl; [reflexivity | now rewrite E, IH].
Qed.

Lemma Zsum_of_nat (l : list nat) : Zsum (map Z.of_nat l) = Z.of_nat (list_sum l).
Proof.
  induction l as [| a t IH]; simpl; [reflexivity |]. unfold Zsum in *. simpl.
  rewrite IH. lia.
Qed.

Lemma heat_column_sum (thr : Q) (c : Column) (df : DataFrame) :
  Zsum (map (fun k => count_ge thr (column c (filter (fun a => keqb (row_year a) k) df)))
            (unique_keys (map row_year df)))
  = count_rows (fun r => reaches thr (cell c (vals r))) df.
Proof.
  rewrite (map_ext _ (fun k => Z.of_nat (length (filter
             (fun x => keqb (row_year x) k && reaches thr (cell c (vals x))) df)))).
  2:{ intros k. rewrite count_ge_column. reflexivity. }
  rewrite <- (map_map (fun k => length (filter
             (fun x => keqb (row_year x) k && reaches thr (cell c (vals x))) df)) Z.of_nat).
  rewrite Zsum_of_nat. unfold count_rows. f_equal.
  apply group_sizes_add_up.
  - apply unique_keys_NoDup.
  - intros a Ha. apply In_unique_keys, in_map. assumption.
Qed.

(** X8: the yearly counts of [annual_stats] (lines 146-156) add up to the
    counts over the whole table: every day with tlmax >= 30 is a hot day of
    exactly one year and every day with tlmin >= 20 a tropical night of
    exactly one year; both plotted columns have one cell per year. *)
Theorem yearly_counts_add_up (df : DataFrame) :
  exists f hd tn,
    annual_stats df = Ok f
    /\ get_column heat_eqb f hot_days = Ok hd
    /\ get_column heat_eqb f tropical_nights = Ok tn
    /\ length hd = length (body f)
    /\ length tn = length (body f)
    /\ Zsum hd = count_rows (fun r => reaches 30 (cell tlmax (vals r))) df
    /\ Zsum tn = count_rows (fun r => reaches 20 (cell tlmin (vals r))) df.
Proof.
  rewrite annual_stats_Ok.
  eexists. exists
    (map (fun k => count_ge 30 (column tlmax (filter (fun a => keqb (row_year a) k) df)))
         (unique_keys (map row_year df))),
    (map (fun k => count_ge 20 (column tlmin (filter (fun a => keqb (row_year a) k) df)))
         (unique_keys (map row_year df))).
  split; [reflexivity |].
  unfold get_column, agg, groupby. simpl labels. simpl body. simpl position.
  rewrite !map_map. simpl.
  split; [f_equal; apply flat_map_map_singleton; reflexivity |].
  split; [f_equal; apply flat_map_map_singleton; reflexivity |].
  rewrite !length_map.
  split; [reflexivity |]. split; [reflexivity |].
  split; apply heat_column_sum.
Qed.

(** ** Phase three does not depend on the order of the rows *)

(** Two strictly ascending key lists with the same members are equal. *)
Lemma sorted_keys_ext {K} `{KeyLaws K} (l1 l2 : list K) :
  StronglySorted klt l1 -> StronglySorted klt l2 ->
  (forall x, In x l1 <-> In x l2) -> l1 = l2.
Proof.
  intros S1. revert l2.
  induction S1 as [| a1 t1 S1 IH A1]; intros l2 S2 Hm.
  - destruct l2 as [| a2 t2]; [reflexivity |].
    exfalso. apply (Hm a2). now left.
  - destruct S2 as [| a2 t2 S2 A2].
    + exfalso. apply (Hm a1). now left.
    + rewrite Forall_forall in A1, A2.
      assert (E : a1 = a2).
      { destruct (proj1 (Hm a1) (or_introl eq_refl)) as [E | Hin1]; [now symmetry |].
        destruct (proj2 (Hm a2) (or_introl eq_refl)) as [E | Hin2]; [assumption |].
        pose proof (A2 a1 Hin1) as L1. pose proof (A1 a2 Hin2) as L2.
        unfold klt in *. pose proof (kltb_trans _ _ _ L1 L2) as L.
        rewrite kltb_irrefl in L. discriminate. }
      subst a2. f_equal. apply IH; [assumption |].
      intros x. split; intros Hx.
      * destruct (proj1 (Hm x) (or_intror Hx)) as [E | Hin]; [| assumption].
        subst x. pose proof (A1 a1 Hx) as L. unfold klt in L.
        rewrite kltb_irrefl in L. discriminate.
      * destruct (proj2 (Hm x) (or_intror Hx)) as [E | Hin]; [| assumption].
        subst x. pose proof (A2 a1 Hx) as L. unfold klt in L.
        rewrite kltb_irrefl in L. discriminate.
Qed.

Lemma Permutation_filter_length {A : Type} (p : A -> bool) (l1 l2 : list A) :
  Permutation l1 l2 -> length (filter p l1) = length (filter p l2).
Proof.
  induction 1 as [| x l l' _ IH | x y l | l l' l'' _ IH1 _ IH2]; simpl.
  - reflexivity.
  - destruct (p x); simpl; now rewrite IH.
  - destruct (p x), (p y); reflexivity.
  - now rewrite IH1.
Qed.

Lemma unique_keys_Permutation {K} `{KeyLaws K} (l1 l2 : list K) :
  Permutation l1 l2 -> unique_keys l1 = unique_keys l2.
Proof.
  intros P. apply sorted_keys_ext; try apply unique_keys_sorted.
  intros x. rewrite !In_unique_keys. split; apply Permutation_in; [| apply Permutation_sym]; exact P.
Qed.

(** X9: phase three (lines 146-152) slices nothing and counts only: two
    tables holding the same rows in any order yield the same [annual_stats],
    a table out of date order included. *)
Theorem annual_stats_ignore_row_order (df1 df2 : DataFrame) :
  Permutation df1 df2 -> annual_stats df1 = annual_stats df2.
Proof.
  intros P. rewrite !annual_stats_Ok. do 2 f_equal.
  unfold agg, groupby. rewrite !map_map. simpl.
  rewrite (unique_keys_Permutation _ _ (Permutation_map row_year P)).
  apply map_ext. intros k. f_equal.
  unfold agg_dict. simpl.
  rewrite !count_ge_column. unfold count_rows.
  now rewrite !(Permutation_filter_length _ _ _ P).
Qed.

Lemma annual_stats_ignore_row_order_witness :
  is_monotonic_increasing (index sample_table_shuffled) = false
  /\ Permutation sample_table sample_table_shuffled
  /\ annual_stats sample_table = annual_stats sample_table_shuffled.
Proof.
  split; [reflexivity |].
  assert (P : Permutation sample_table sample_table_shuffled) by apply Permutation_rev.
  split; [exact P |].
  exact (annual_stats_ignore_row_order sample_table sample_table_shuffled P).
Defined.

(** ** The order of the hottest years *)

Lemma sorted_firstn {A : Type} (R : A -> A -> Prop) (n : nat) (l : list A) :
  StronglySorted R l -> StronglySorted R (firstn n l).
Proof.
  intros Hs. revert n. induction Hs as [| a t Hs IH Hall]; intros [| n]; simpl;
    try constructor.
  - apply IH.
  - rewrite Forall_forall in *. intros x Hx. apply Hall.
    rewrite <- (firstn_skipn n t). apply in_app_iff. now left.
Qed.

Lemma sorted_map_in {A B : Type} (R : A -> A -> Prop) (R' : B -> B -> Prop) (f : A -> B)
  (l : list A) :
  (forall a b, In a l -> In b l -> R a b -> R' (f a) (f b)) ->
  StronglySorted R l -> StronglySorted R' (map f l).
Proof.
  intros HR Hs. induction Hs as [| a t Hs IH Hall]; simpl; constructor.
  - apply IH. intros x y Hx Hy. apply HR; now right.
  - rewrite Forall_forall in *. intros y Hy. apply in_map_iff in Hy.
    destruct Hy as [b [<- Hb]]. apply HR; [now left | now right | now apply Hall].
Qed.

(** X10: [hottest_years] (line 43) lists the years from the hottest on: a
    year never comes after a year of smaller mean anomaly, so the curves of
    lines 54-56 are drawn, and the legend filled, in descending order. *)
Theorem hottest_years_are_listed_hottest_first (df : DataFrame) (o : Phase1) :
  phase1 df = Ok o ->
  StronglySorted
    (fun y y' =>
       forall v v',
         loc y (mean_anom_per_year o) = Some v ->
         loc y' (mean_anom_per_year o) = Some v' ->
         ranks_below v' v)
    (hottest_years o).
Proof.
  intros Hp.
  pose proof (mean_anom_per_year_NoDup _ _ Hp) as ND.
  destruct (phase1_fields _ _ Hp) as (_ & _ & _ & _ & _ & _ & Hh).
  rewrite Hh. unfold keys.
  apply (sorted_map_in desc_rank).
  - intros a b Ha Hb Hab v v' Hv Hv'.
    apply nlargest_In in Ha, Hb.
    destruct a as [ka va], b as [kb vb]. simpl in *.
    apply (In_loc _ _ _ ND) in Ha, Hb.
    unfold desc_rank in Hab. simpl in Hab. congruence.
  - unfold nlargest. apply sorted_firstn, sort_desc_sorted.
Qed.

Lemma hottest_years_are_listed_hottest_first_witness :
  phase1 seven_year_table = Ok seven_year_phase1
  /\ StronglySorted
       (fun y y' =>
          forall v v',
            loc y (mean_anom_per_year seven_year_phase1) = Some v ->
            loc y' (mean_anom_per_year seven_year_phase1) = Some v' ->
            ranks_below v' v)
       (hottest_years seven_year_phase1).
Proof.
  split; [vm_compute; reflexivity |].
  apply (hottest_years_are_listed_hottest_first seven_year_table seven_year_phase1).
  vm_compute; reflexivity.
Defined.

(** ** Order statistics stay within the observed values *)

Lemma In_sort_values (y : Q) (l : list Q) : In y (sort_values l) -> In y l.
Proof.
  induction l as [| x t IH]; simpl; [tauto |].
  intros Hin. apply In_insert_sorted in Hin. destruct Hin as [-> | Hin]; [now left |].
  right. now apply IH.
Qed.

Lemma In_dropna (x : list (option Q)) (q : Q) : In q (dropna x) -> In (Some q) x.
Proof.
  induction x as [| [a |] t IH]; simpl; [tauto | |].
  - intros [-> | Hin]; [now left | right; now apply IH].
  - intros Hin. right. now apply IH.
Qed.

Lemma interp_observed (x : list (option Q)) (v0 : Q) (t : list Q) (q0 : Q) :
  sort_values (dropna x) = v0 :: t ->
  (0 <= q0)%Q -> (q0 <= 1)%Q ->
  exists a b,
    In (Some a) x /\ In (Some b) x
    /\ (a <= interp (v0 :: t) v0 (q0 * inject_Z (Z.of_nat (length (v0 :: t)) - 1)))%Q
    /\ (interp (v0 :: t) v0 (q0 * inject_Z (Z.of_nat (length (v0 :: t)) - 1)) <= b)%Q.
Proof.
  intros E H0 H1.
  set (v := v0 :: t) in *. set (h := (q0 * inject_Z (Z.of_nat (length v) - 1))%Q).
  assert (Hn : (1 <= length v)%nat) by (subst v; simpl; lia).
  assert (Hs : StronglySorted Qle v) by (rewrite <- E; apply sort_values_sorted).
  destruct (position_range q0 (length v) Hn H0 H1) as [P0 P1]. fold h in P0, P1.
  destruct (interp_between v v0 h Hs P0 P1) as [L U]. cbv zeta in L, U.
  destruct (Qfloor_range h (length v) P0 P1) as [F0 F1].
  assert (Hobs : forall i, (i < length v)%nat -> In (Some (nth i v v0)) x).
  { intros i Hi. apply In_dropna, In_sort_values. rewrite E. now apply nth_In. }
  eexists _, _. split; [apply Hobs | split; [apply Hobs | split; [exact L | exact U]]]; lia.
Qed.

(** Each of the five statistics of a sample with an observed value lies
    between two observed values. *)
Lemma stat_fun_observed (s : StatName) (x : list (option Q)) (q : Q) :
  In (Some q) x ->
  exists v a b,
    stat_fun s x = Some v /\ In (Some a) x /\ In (Some b) x /\ (a <= v)%Q /\ (v <= b)%Q.
Proof.
  intros Hin. destruct (sort_values_nonempty x q Hin) as [v0 [t E]].
  assert (Hq : forall q0, (0 <= q0)%Q -> (q0 <= 1)%Q ->
                 exists v a b, quantile q0 x = Some v /\ In (Some a) x /\ In (Some b) x
                               /\ (a <= v)%Q /\ (v <= b)%Q).
  { intros q0 H0 H1. destruct (interp_observed x v0 t q0 E H0 H1) as (a & b & Ha & Hb & L & U).
    rewrite (quantile_interp _ x v0 t E). eexists _, a, b. repeat split; eassumption. }
  destruct s; simpl; try (apply Hq; lra).
  destruct (median_interp x v0 t E) as [md [Hmd Emd]].
  assert (H0 : (0 <= 1 # 2)%Q) by lra. assert (H1 : (1 # 2 <= 1)%Q) by lra.
  destruct (interp_observed x v0 t (1 # 2) E H0 H1) as (a & b & Ha & Hb & L & U).
  exists md, a, b. rewrite <- Emd in L, U. repeat split; assumption.
Qed.

(** X11: every order statistic of [monthly_stats] (lines 77-84) for a month
    and column with an observed value is a number lying between two observed
    values of that column in the custom-year rows of that month: the
    interpolation never leaves the range of the data. *)
Theorem order_statistics_lie_within_the_observations
  (df : DataFrame) (f : Labelled Z (Column * StatName) (option Q))
  (m : Z) (c : Column) (s : StatName) :
  monthly_stats df = Ok f ->
  (exists r q, In r (custom_rows df) /\ row_month r = m /\ cell c (vals r) = Some q) ->
  exists v r1 r2 a b,
    at_label stat_label_eqb f m (c, s) = Some (Some v)
    /\ In r1 (custom_rows df) /\ row_month r1 = m /\ cell c (vals r1) = Some a
    /\ In r2 (custom_rows df) /\ row_month r2 = m /\ cell c (vals r2) = Some b
    /\ (a <= v)%Q /\ (v <= b)%Q.
Proof.
  intros Hf [r [q [Hin [Hm Hq]]]].
  apply monthly_stats_Ok in Hf. subst f.
  set (x := column c (filter (fun r => row_month r =? m) (custom_rows df))).
  assert (Hrow : forall a, In (Some a) x ->
             exists r0, In r0 (custom_rows df) /\ row_month r0 = m /\ cell c (vals r0) = Some a).
  { intros a Ha. subst x. unfold column in Ha. apply in_map_iff in Ha.
    destruct Ha as [r0 [E0 H0]]. apply filter_In in H0. destruct H0 as [H0 Em].
    exists r0. split; [assumption |]. split; [now apply Z.eqb_eq | assumption]. }
  assert (Hx : In (Some q) x).
  { subst x. unfold column. rewrite <- Hq.
    apply (in_map (fun r0 => cell c (vals r0))).
    apply filter_In. split; [assumption |]. now apply Z.eqb_eq. }
  destruct (stat_fun_observed s x q Hx) as (v & a & b & Hv & Ha & Hb & L & U).
  destruct (Hrow a Ha) as (r1 & I1 & M1 & C1).
  destruct (Hrow b Hb) as (r2 & I2 & M2 & C2).
  exists v, r1, r2, a, b.
  split; [rewrite (at_label_stat df m c s r Hin Hm); fold x; now rewrite Hv |].
  repeat split; assumption.
Qed.

Lemma order_statistics_lie_within_the_observations_witness :
  monthly_stats sample_table = Ok sample_monthly_stats
  /\ exists v r1 r2 a b,
       at_label stat_label_eqb sample_monthly_stats 1 (tl_mittel, P90) = Some (Some v)
       /\ In r1 (custom_rows sample_table) /\ row_month r1 = 1
       /\ cell tl_mittel (vals r1) = Some a
       /\ In r2 (custom_rows sample_table) /\ row_month r2 = 1
       /\ cell tl_mittel (vals r2) = Some b
       /\ (a <= v)%Q /\ (v <= b)%Q.
Proof.
  split; [vm_compute; reflexivity |].
  apply (order_statistics_lie_within_the_observations
           sample_table sample_monthly_stats 1 tl_mittel P90).
  - vm_compute; reflexivity.
  - exists (sample_row 2002 1 5 (Some 7%Q) (Some 1%Q) (Some 3%Q)), 7%Q.
    split; [vm_compute; left; reflexivity |]. split; reflexivity.
Defined.

(** ** The month axis of the second plot *)

Lemma In_months (m : Z) : In m months <-> 1 <= m <= 12.
Proof.
  unfold months. simpl. split.
  - intros Hin. repeat (destruct Hin as [<- | Hin]; [lia |]). contradiction.
  - intros Hm.
    assert (E : m = 1 \/ m = 2 \/ m = 3 \/ m = 4 \/ m = 5 \/ m = 6 \/ m = 7 \/ m = 8
                \/ m = 9 \/ m = 10 \/ m = 11 \/ m = 12) by lia.
    repeat (destruct E as [-> | E]; [tauto |]). subst. tauto.
Qed.

Lemma months_sorted : StronglySorted (@klt Z Key_Z) months.
Proof.
  unfold months. simpl. repeat (constructor; [| repeat (constructor; [reflexivity |]); constructor]).
  constructor.
Qed.

(** X12: for valid dates, the index of [monthly_stats] is the month axis
    [range(1, 13)] of the plot (line 94), month for month, exactly when the
    custom-year rows cover all twelve calendar months; each of the fifteen
    plotted columns (lines 105-125) has one cell per row of the index. *)
Theorem monthly_stats_index_is_the_month_axis
  (df : DataFrame) (f : Labelled Z (Column * StatName) (option Q)) :
  valid_table df = true ->
  monthly_stats df = Ok f ->
  (keys (body f) = months <->
   forall m, 1 <= m <= 12 -> exists r, In r (custom_rows df) /\ row_month r = m)
  /\ forall c s, exists col,
       get_column stat_label_eqb f (c, s) = Ok col /\ length col = length (body f).
Proof.
  intros Hv Hf. apply monthly_stats_Ok in Hf. subst f. simpl body.
  split.
  - split.
    + intros E m Hm. apply In_months in Hm. rewrite <- E in Hm.
      now apply In_keys_groupby in Hm.
    + intros Hcov. rewrite keys_agg, keys_groupby.
      apply sorted_keys_ext; [apply unique_keys_sorted | apply months_sorted |].
      intros x. rewrite In_unique_keys, In_months, in_map_iff. split.
      * intros [r [<- Hr]]. apply (valid_table_row df r Hv). now apply In_custom_rows.
      * intros Hx. destruct (Hcov x Hx) as [r [Hr Em]]. exists r. tauto.
  - intros c s. unfold get_column. simpl labels. simpl body.
    unfold agg, groupby. rewrite !map_map. simpl fst. simpl snd.
    destruct c, s; simpl position; cbv iota;
      (eexists; split; [reflexivity |]);
      rewrite length_map;
      erewrite flat_map_map_singleton by (intros k; reflexivity);
      now rewrite length_map.
Qed.

Lemma monthly_stats_index_is_the_month_axis_witness :
  valid_table sample_table = true
  /\ monthly_stats sample_table = Ok sample_monthly_stats
  /\ (keys (body sample_monthly_stats) = months <->
      forall m, 1 <= m <= 12 ->
                exists r, In r (custom_rows sample_table) /\ row_month r = m)
  /\ forall c s, exists col,
       get_column stat_label_eqb sample_monthly_stats (c, s) = Ok col
       /\ length col = length (body sample_monthly_stats).
Proof.
  split; [reflexivity |]. split; [vm_compute; reflexivity |].
  apply (monthly_stats_index_is_the_month_axis sample_table sample_monthly_stats).
  - reflexivity.
  - vm_compute; reflexivity.
Defined.

(** ** The timeline of the first plot *)


Lemma valid_ts_mid_month (y m : Z) : 1 <= m <= 12 -> valid_ts (mkTs y m 15) = true.
Proof.
  intros Hm. unfold valid_ts, days_in_month. cbn [year month day].
  rewrite !andb_true_iff, !Z.leb_le. repeat split; try lia.
  destruct (m =? 2); [destruct (is_leap_year y); lia |].
  destruct ((m =? 4) || (m =? 6) || (m =? 9) || (m =? 11)); lia.
Qed.

Lemma make_timestamp_mid_month (y m : Z) :
  1 <= y <= 9999 -> 1 <= m <= 12 -> make_timestamp y m 15 = Ok (mkTs y m 15).
Proof.
  intros Hy Hm. unfold make_timestamp.
  rewrite (valid_ts_mid_month y m Hm).
  replace (1 <=? y) with true by (symmetry; apply Z.leb_le; lia).
  replace (y <=? 9999) with true by (symmetry; apply Z.leb_le; lia).
  reflexivity.
Qed.

Lemma time_index_Ok (idx : list (Z * Z)) :
  (forall k, In k idx -> 1 <= fst k <= 9999 /\ 1 <= snd k <= 12) ->
  time_index idx = Ok (map mid_month idx).
Proof.
  induction idx as [| k t IH]; intros Hk; [reflexivity |].
  simpl. destruct (Hk k (or_introl eq_refl)) as [Hy Hm].
  rewrite (make_timestamp_mid_month _ _ Hy Hm). simpl.
  rewrite IH by (intros x Hx; apply Hk; now right). reflexivity.
Qed.

Lemma combine_keys_values {K V W : Type} (g : K -> W) (l : list (K * V)) :
  combine (map g (keys l)) (map snd l) = map (fun e => (g (fst e), snd e)) l.
Proof.
  unfold keys. induction l as [| a t IH]; simpl; [reflexivity | now rewrite IH].
Qed.

Lemma keys_series_of {K : Type} (c : Column) (f : list (K * Temps)) :
  keys (series_of c f) = keys f.
Proof. unfold keys, series_of. rewrite map_map. reflexivity. Qed.

Lemma anom_keys (df : DataFrame) (o : Phase1) :
  phase1 df = Ok o ->
  keys (anom o) = unique_keys (map row_year_month (baseline df)).
Proof.
  intros Hp. destruct (phase1_fields _ _ Hp) as (_ & _ & _ & Hmm & Han & _).
  now rewrite Han, keys_sub_on_month, Hmm, keys_agg, keys_groupby.
Qed.

Lemma anom_key_valid (df : DataFrame) (o : Phase1) (k : Z * Z) :
  valid_table df = true -> phase1 df = Ok o -> In k (keys (anom o)) ->
  1991 <= fst k <= 2020 /\ 1 <= snd k <= 12.
Proof.
  intros Hv Hp Hk. rewrite (anom_keys _ _ Hp) in Hk.
  apply In_unique_keys, in_map_iff in Hk. destruct Hk as [r [<- Hr]].
  apply In_baseline in Hr. destruct Hr as [Hr Hw]. simpl. split.
  - now apply in_window_year.
  - now apply (valid_table_row df r Hv).
Qed.

Lemma series_Ok (df : DataFrame) (o : Phase1) :
  valid_table df = true -> phase1 df = Ok o ->
  series o = Ok (map dated (series_of tl_mittel (anom o))).
Proof.
  intros Hv Hp. unfold series.
  rewrite time_index_Ok.
  - simpl. f_equal. apply combine_keys_values.
  - intros k Hk. rewrite keys_series_of in Hk.
    destruct (anom_key_valid df o k Hv Hp Hk). lia.
Qed.

Lemma mid_month_lt (a b : Z * Z) : klt a b -> ts_lt (mid_month a) (mid_month b).
Proof.
  unfold klt, ts_lt, mid_month. simpl. rewrite pair_ltb_spec, ts_ltb_spec. simpl. lia.
Qed.

(** X13: for valid dates, building the date index of the anomaly series
    (lines 45-48) never raises: the series keeps its values, each dated the
    15th of its (year, month), and its dates are strictly ascending, one
    point per month of the baseline. *)
Theorem series_is_a_monthly_timeline (df : DataFrame) (o : Phase1) :
  valid_table df = true ->
  phase1 df = Ok o ->
  exists s,
    series o = Ok s
    /\ s = map dated (series_of tl_mittel (anom o))
    /\ map snd s = map (fun kt => cell tl_mittel (snd kt)) (anom o)
    /\ StronglySorted ts_lt (map fst s).
Proof.
  intros Hv Hp. eexists. split; [now apply (series_Ok df) |].
  split; [reflexivity |]. split.
  - unfold series_of. rewrite !map_map. reflexivity.
  - rewrite map_map.
    change (map (fun x => fst (dated x)) (series_of tl_mittel (anom o)))
      with (map (fun x => mid_month (fst x)) (series_of tl_mittel (anom o))).
    rewrite <- (map_map fst mid_month).
    change (map fst (series_of tl_mittel (anom o))) with (keys (series_of tl_mittel (anom o))).
    rewrite keys_series_of, (anom_keys _ _ Hp).
    apply (sorted_map_in klt).
    + intros a b _ _. apply mid_month_lt.
    + apply unique_keys_sorted.
Qed.

Lemma series_is_a_monthly_timeline_witness :
  valid_table sample_table = true
  /\ phase1 sample_table = Ok sample_phase1
  /\ exists s,
       series sample_phase1 = Ok s
       /\ s = map dated (series_of tl_mittel (anom sample_phase1))
       /\ map snd s = map (fun kt => cell tl_mittel (snd kt)) (anom sample_phase1)
       /\ StronglySorted ts_lt (map fst s).
Proof.
  split; [reflexivity |]. split; [vm_compute; reflexivity |].
  apply (series_is_a_monthly_timeline sample_table sample_phase1).
  - reflexivity.
  - vm_compute; reflexivity.
Defined.

(** Within one year the entries of a series indexed by distinct (year,
    month) keys have distinct months. *)
Lemma year_months_NoDup {V : Type} (y : Z) (s : list ((Z * Z) * V)) :
  NoDup (keys s) ->
  NoDup (map (fun e => snd (fst e)) (filter (fun e => fst (fst e) =? y) s)).
Proof.
  unfold keys. induction s as [| a t IH]; simpl; intros ND; [constructor |].
  inversion ND as [| ? ? Hnot ND']; subst.
  destruct (fst (fst a) =? y) eqn:E; [| now apply IH].
  simpl. constructor; [| now apply IH].
  intros Hin. apply in_map_iff in Hin. destruct Hin as [e [Em He]].
  apply filter_In in He. destruct He as [He Ey].
  apply Z.eqb_eq in E, Ey. apply Hnot.
  replace (fst a) with (fst e); [now apply in_map |].
  destruct (fst e), (fst a). simpl in *. congruence.
Qed.

(** X14: for valid dates, the points drawn for a highlighted year (lines
    54-56) are exactly the monthly tl_mittel anomalies of that year, each on
    the 15th of its month: at least one and at most twelve points, one per
    month. *)
Theorem highlighted_points_of_a_hottest_year (df : DataFrame) (o : Phase1)
  (s : list (Timestamp * option Q)) (y : Z) :
  valid_table df = true ->
  phase1 df = Ok o ->
  series o = Ok s ->
  In y (hottest_years o) ->
  highlighted s y
  = map dated (filter (fun e => fst (fst e) =? y) (series_of tl_mittel (anom o)))
  /\ (1 <= length (highlighted s y) <= 12)%nat.
Proof.
  intros Hv Hp Hs Hy.
  rewrite (series_Ok df o Hv Hp) in Hs. injection Hs as <-.
  assert (E : highlighted (map dated (series_of tl_mittel (anom o))) y
              = map dated (filter (fun e => fst (fst e) =? y) (series_of tl_mittel (anom o)))).
  { unfold highlighted. now rewrite filter_map_comm. }
  split; [exact E |].
  rewrite E, length_map.
  set (S := series_of tl_mittel (anom o)). split.
  - destruct (phase1_fields _ _ Hp) as (_ & _ & _ & _ & _ & Hpy & Hh).
    rewrite Hh in Hy. unfold keys in Hy. apply in_map_iff in Hy.
    destruct Hy as [a [<- Ha]]. apply nlargest_In in Ha.
    assert (Hk : In (fst a) (keys (mean_anom_per_year o))) by (unfold keys; now apply in_map).
    rewrite Hpy in Hk. apply In_keys_groupby in Hk. destruct Hk as [e [He Ee]].
    fold S in He.
    assert (Hf : In e (filter (fun e0 => fst (fst e0) =? fst a) S)).
    { apply filter_In. split; [assumption | now apply Z.eqb_eq]. }
    destruct (filter (fun e0 => fst (fst e0) =? fst a) S); [contradiction | simpl; lia].
  - assert (ND : NoDup (keys S)).
    { subst S. rewrite keys_series_of, (anom_keys _ _ Hp). apply unique_keys_NoDup. }
    pose proof (year_months_NoDup y S ND) as NDm.
    rewrite <- (length_map (fun e => snd (fst e))).
    change 12%nat with (length months).
    apply NoDup_incl_length; [exact NDm |].
    intros m Hm. apply in_map_iff in Hm. destruct Hm as [e [<- He]].
    apply filter_In in He. destruct He as [He _].
    apply In_months.
    assert (Hk : In (fst e) (keys (anom o))).
    { rewrite <- (keys_series_of tl_mittel). unfold keys. now apply in_map. }
    now destruct (anom_key_valid df o (fst e) Hv Hp Hk).
Qed.

Lemma highlighted_points_of_a_hottest_year_witness :
  valid_table seven_year_table = true
  /\ phase1 seven_year_table = Ok seven_year_phase1
  /\ series seven_year_phase1 = Ok seven_year_series
  /\ In 1995 (hottest_years seven_year_phase1)
  /\ highlighted seven_year_series 1995
     = map dated (filter (fun e => fst (fst e) =? 1995)
                         (series_of tl_mittel (anom seven_year_phase1)))
  /\ (1 <= length (highlighted seven_year_series 1995) <= 12)%nat.
Proof.
  assert (Hv : valid_table seven_year_table = true) by reflexivity.
  assert (Hp : phase1 seven_year_table = Ok seven_year_phase1) by (vm_compute; reflexivity).
  assert (Hs : series seven_year_phase1 = Ok seven_year_series) by (vm_compute; reflexivity).
  assert (Hy : In 1995 (hottest_years seven_year_phase1)) by (simpl; tauto).
  split; [exact Hv |]. split; [exact Hp |]. split; [exact Hs |]. split; [exact Hy |].
  exact (highlighted_points_of_a_hottest_year
           seven_year_table seven_year_phase1 seven_year_series 1995 Hv Hp Hs Hy).
Defined.

(** ** Missing anomalies *)

Lemma mean_None (x : list (option Q)) : mean x = None <-> forall q, ~ In (Some q) x.
Proof.
  unfold mean. split.
  - destruct (dropna x) as [| v t] eqn:E; [| discriminate].
    intros _ q Hq. apply dropna_In in Hq. now rewrite E in Hq.
  - intros Hn. destruct (dropna x) as [| v t] eqn:E; [reflexivity |].
    exfalso. apply (Hn v). apply In_dropna. rewrite E. now left.
Qed.

(** X15: subtracting the climatology (line 35) introduces no gap: a cell of
    the anomaly of a (year, month) is NaN exactly when the monthly mean of
    that (year, month) is NaN, that is when the column has no observed value
    in that month. *)
Theorem anomaly_missing_iff_monthly_mean_missing
  (df : DataFrame) (o : Phase1) (y m : Z) (c : Column) (mm an : Temps) :
  phase1 df = Ok o ->
  loc (y, m) (monthly_means o) = Some mm ->
  loc (y, m) (anom o) = Some an ->
  (cell c an = None <-> cell c mm = None).
Proof.
  intros Hp Hmm Han.
  destruct (phase1_fields _ _ Hp) as (_ & _ & Hcl & Emm & Ean & _).
  rewrite Ean in Han. unfold sub_on_month in Han.
  rewrite (loc_map_values
             (fun k t => temps_sub t (match loc (snd k) (clim o) with
                                      | Some c0 => c0 | None => nan_temps end))) in Han.
  rewrite Hmm in Han. simpl in Han. injection Han as <-.
  rewrite Emm, loc_agg_groupby in Hmm.
  destruct (existsb (fun a => keqb (row_year_month a) (y, m)) (baseline df)) eqn:Ex;
    [| discriminate].
  injection Hmm as <-.
  apply existsb_exists in Ex. destruct Ex as [r [Hr Hk]]. apply keqb_eq in Hk.
  assert (Hcm : loc m (clim o)
                = Some (frame_mean (filter (fun a => keqb (row_month a) m) (baseline df)))).
  { rewrite Hcl, loc_agg_groupby.
    rewrite (existsb_witness _ _ r Hr); [reflexivity |].
    apply keqb_eq. unfold row_year_month in Hk. now injection Hk. }
  rewrite Hcm.
  assert (Hsub : cell c (temps_sub
                   (frame_mean (filter (fun a => keqb (row_year_month a) (y, m)) (baseline df)))
                   (frame_mean (filter (fun a => keqb (row_month a) m) (baseline df))))
                 = fsub (mean (column c (filter (fun a => keqb (row_year_month a) (y, m))
                                                 (baseline df))))
                        (mean (column c (filter (fun a => keqb (row_month a) m)
                                                 (baseline df))))).
  { destruct c; reflexivity. }
  rewrite Hsub, cell_frame_mean.
  split.
  - destruct (mean (column c (filter (fun a => keqb (row_year_month a) (y, m)) (baseline df))))
      as [v |] eqn:E1; [| reflexivity].
    destruct (mean (column c (filter (fun a => keqb (row_month a) m) (baseline df))))
      as [w |] eqn:E2; [discriminate |].
    intros _. exfalso.
    assert (N1 : mean (column c (filter (fun a => keqb (row_year_month a) (y, m))
                                        (baseline df))) <> None) by congruence.
    apply N1. apply mean_None. intros q Hq.
    apply (proj1 (mean_None _) E2 q).
    unfold column in *. apply in_map_iff in Hq. destruct Hq as [r0 [E0 H0]].
    apply in_map_iff. exists r0. split; [assumption |].
    apply filter_In in H0. destruct H0 as [H0 K0]. apply filter_In. split; [assumption |].
    apply keqb_eq in K0. apply keqb_eq. unfold row_year_month in K0. now injection K0.
  - intros ->. reflexivity.
Qed.

Lemma anomaly_missing_iff_monthly_mean_missing_witness :
  phase1 sample_table = Ok sample_phase1
  /\ exists mm an,
       loc (1991, 1) (monthly_means sample_phase1) = Some mm
       /\ loc (1991, 1) (anom sample_phase1) = Some an
       /\ (cell tlmin an = None <-> cell tlmin mm = None).
Proof.
  split; [vm_compute; reflexivity |].
  eexists _, _. split; [vm_compute; reflexivity |]. split; [vm_compute; reflexivity |].
  apply (anomaly_missing_iff_monthly_mean_missing sample_table sample_phase1 1991 1 tlmin);
    vm_compute; reflexivity.
Defined.

(** ** Monthly means *)

Lemma keqb_pair_eqb (r : Row) (y m : Z) :
  keqb (row_year_month r) (y, m) = (row_year r =? y) && (row_month r =? m).
Proof.
  apply eq_true_iff_eq. rewrite keqb_eq, andb_true_iff, !Z.eqb_eq.
  unfold row_year_month, row_year, row_month.
  split; [intros [= -> ->]; tauto | intros [-> ->]; reflexivity].
Qed.

(** X16: the monthly mean of a (year, month) (line 32) is, column by column,
    the arithmetic mean (sum of the observed values over their number) over
    exactly the input rows dated within 1991-01-01 .. 2020-12-31 of that year
    and month; [monthly_means] has a row for (year, month) exactly when such
    a row exists. *)
Theorem monthly_means_rows (df : DataFrame) (o : Phase1) (y m : Z) (c : Column) :
  phase1 df = Ok o ->
  (loc (y, m) (monthly_means o) = None <->
   forall r, In r df -> in_window (time r) = true -> row_year r = y -> row_month r <> m)
  /\ match loc (y, m) (monthly_means o) with Some t => cell c t | None => None end
     = arithmetic_mean
         (map (fun r => cell c (vals r))
              (filter (fun r => in_window (time r)
                                && ((row_year r =? y) && (row_month r =? m))) df)).
Proof.
  intros Hp.
  destruct (phase1_fields _ _ Hp) as (_ & _ & _ & Hmm & _).
  assert (Hrows : filter (fun a => keqb (row_year_month a) (y, m)) (baseline df)
                  = filter (fun r => in_window (time r)
                                     && ((row_year r =? y) && (row_month r =? m))) df).
  { unfold baseline. rewrite filter_filter. apply filter_ext.
    intros r. now rewrite keqb_pair_eqb. }
  rewrite Hmm, loc_agg_groupby.
  destruct (existsb (fun a => keqb (row_year_month a) (y, m)) (baseline df)) eqn:E.
  - split.
    + split; [discriminate |].
      intros Hno. exfalso.
      apply existsb_exists in E. destruct E as [r [Hin Hk]].
      apply In_baseline in Hin. destruct Hin as [Hin Hw].
      apply keqb_eq in Hk. unfold row_year_month in Hk. injection Hk as Hy Hm.
      exact (Hno r Hin Hw Hy Hm).
    + now rewrite cell_frame_mean, Hrows, mean_arithmetic.
  - split.
    + split; [| reflexivity].
      intros _ r Hin Hw Hy Hm.
      assert (X : existsb (fun a => keqb (row_year_month a) (y, m)) (baseline df) = true).
      { apply (existsb_witness _ _ r).
        - apply In_baseline. now split.
        - apply keqb_eq. unfold row_year_month. unfold row_year, row_month in *. congruence. }
      congruence.
    + apply existsb_false_filter in E. rewrite Hrows in E. now rewrite E.
Qed.

Lemma monthly_means_rows_witness :
  phase1 sample_table = Ok sample_phase1
  /\ (loc (1991, 1) (monthly_means sample_phase1) = None <->
      forall r, In r sample_table -> in_window (time r) = true ->
                row_year r = 1991 -> row_month r <> 1)
  /\ match loc (1991, 1) (monthly_means sample_phase1) with
     | Some t => cell tl_mittel t | None => None end
     = arithmetic_mean
         (map (fun r => cell tl_mittel (vals r))
              (filter (fun r => in_window (time r)
                                && ((row_year r =? 1991) && (row_month r =? 1)))
                      sample_table)).
Proof.
  split; [vm_compute; reflexivity |].
  apply (monthly_means_rows sample_table sample_phase1 1991 1 tl_mittel).
  vm_compute; reflexivity.
Defined.

(** ** A sample of one observation *)

Lemma stat_fun_single (s : StatName) (x : list (option Q)) (v : Q) :
  dropna x = [v] -> exists w, stat_fun s x = Some w /\ (w == v)%Q.
Proof.
  intros E.
  assert (Hq : forall q0, exists w, quantile q0 x = Some w /\ (w == v)%Q).
  { intros q0. unfold quantile. rewrite E. simpl sort_values. cbv zeta.
    eexists. split; [reflexivity |].
    assert (H0 : (q0 * inject_Z (Z.of_nat (length [v]) - 1) == 0)%Q) by (simpl; ring).
    assert (F : Qfloor (q0 * inject_Z (Z.of_nat (length [v]) - 1)) = 0)
      by (rewrite H0; reflexivity).
    rewrite F. simpl. ring. }
  destruct s; simpl; try apply Hq.
  exists v. split; [| reflexivity].
  unfold median. now rewrite E.
Qed.

(** X17: when a month of the custom years holds exactly one observed value
    of a column, all five order statistics of that month and column in
    [monthly_stats] (lines 77-84) equal that value. *)
Theorem order_statistics_of_one_observation
  (df : DataFrame) (f : Labelled Z (Column * StatName) (option Q))
  (m : Z) (c : Column) (s : StatName) (v : Q) :
  monthly_stats df = Ok f ->
  dropna (column c (filter (fun r => row_month r =? m) (custom_rows df))) = [v] ->
  exists w, at_label stat_label_eqb f m (c, s) = Some (Some w) /\ (w == v)%Q.
Proof.
  intros Hf E.
  apply monthly_stats_Ok in Hf. subst f.
  destruct (stat_fun_single s _ v E) as [w [Hw Ew]].
  exists w. split; [| exact Ew].
  assert (Hr : exists r, In r (custom_rows df) /\ row_month r = m).
  { destruct (filter (fun r => row_month r =? m) (custom_rows df)) as [| r t] eqn:Ef;
      [discriminate |].
    assert (Hin : In r (filter (fun r => row_month r =? m) (custom_rows df)))
      by (rewrite Ef; now left).
    apply filter_In in Hin. exists r. split; [tauto | now apply Z.eqb_eq]. }
  destruct Hr as [r [Hin Hm]].
  now rewrite (at_label_stat df m c s r Hin Hm), Hw.
Qed.

Lemma order_statistics_of_one_observation_witness :
  monthly_stats missing_column_table = Ok missing_column_stats
  /\ dropna (column tlmax (filter (fun r => row_month r =? 1)
                                  (custom_rows missing_column_table))) = [3%Q]
  /\ exists w,
       at_label stat_label_eqb missing_column_stats 1 (tlmax, P10) = Some (Some w)
       /\ (w == 3)%Q.
Proof.
  split; [vm_compute; reflexivity |]. split; [reflexivity |].
  apply (order_statistics_of_one_observation missing_column_table missing_column_stats
           1 tlmax P10 3%Q).
  - vm_compute; reflexivity.
  - reflexivity.
Defined.
